(** * capacities-mcp: the tool adapter of [src/index.ts]

    A shallow embedding of the four tool handlers, of the HTTP helper
    [capacitiesRequest] they share and of the start-up code, followed by the
    properties of the adapter that the specification states.

    JavaScript strings are sequences of UTF-16 code units; [length] and
    [slice] count code units, so a string is a [list N] here.  Values that
    come back from [JSON.parse] are untyped: the handlers read properties of
    whatever the upstream sent, and the model keeps the coercions the
    language performs on them (property reads on [undefined], [??],
    truthiness, template-literal interpolation). *)

From Stdlib Require Import Ascii String List PeanoNat NArith Bool Lia PrimFloat.
Import ListNotations.

Set Warnings "-register-all".

Local Open Scope N_scope.
Local Open Scope list_scope.

(** ** Strings *)

Definition code_unit := N.
Definition jsstring := list code_unit.

Fixpoint bytes_of (s : string) : list N :=
  match s with
  | EmptyString => []
  | String c rest => N_of_ascii c :: bytes_of rest
  end.

(** The source file is UTF-8; a literal of it stands for its code points. *)
Fixpoint utf8_decode (bs : list N) : list N :=
  match bs with
  | [] => []
  | b0 :: t0 =>
    if b0 <? 128 then b0 :: utf8_decode t0
    else
      match t0 with
      | [] => []
      | b1 :: t1 =>
        if b0 <? 224 then ((b0 mod 32) * 64 + b1 mod 64) :: utf8_decode t1
        else
          match t1 with
          | [] => []
          | b2 :: t2 =>
            if b0 <? 240
            then ((b0 mod 16) * 4096 + (b1 mod 64) * 64 + b2 mod 64)
                   :: utf8_decode t2
            else
              match t2 with
              | [] => []
              | b3 :: t3 =>
                ((b0 mod 8) * 262144 + (b1 mod 64) * 4096
                 + (b2 mod 64) * 64 + b3 mod 64) :: utf8_decode t3
              end
          end
      end
  end.

Definition utf16_encode (cp : N) : list code_unit :=
  if cp <? 65536 then [cp]
  else [55296 + (cp - 65536) / 1024; 56320 + (cp - 65536) mod 1024].

(** [lit s] is the JavaScript string that the literal [s] denotes. *)
Definition lit (s : string) : jsstring :=
  flat_map utf16_encode (utf8_decode (bytes_of s)).

Definition LF : jsstring := [10].
Definition DQUOTE : jsstring := [34].

Fixpoint str_eqb (a b : jsstring) : bool :=
  match a, b with
  | [], [] => true
  | x :: a', y :: b' => (x =? y) && str_eqb a' b'
  | _, _ => false
  end.

Fixpoint starts_with (needle hay : jsstring) : bool :=
  match needle, hay with
  | [], _ => true
  | x :: needle', y :: hay' => (x =? y) && starts_with needle' hay'
  | _ :: _, [] => false
  end.

(** [hay.includes(needle)] *)
Fixpoint includes (needle hay : jsstring) : bool :=
  starts_with needle hay
  || match hay with
     | [] => false
     | _ :: hay' => includes needle hay'
     end.

Definition is_empty (s : jsstring) : bool :=
  match s with [] => true | _ :: _ => false end.

(** [s.slice(0, n)] for a non-negative [n]. *)
Definition slice0 (n : nat) (s : jsstring) : jsstring := firstn n s.

(** [parts.join(sep)] on an array of strings. *)
Fixpoint join (sep : jsstring) (parts : list jsstring) : jsstring :=
  match parts with
  | [] => []
  | [p] => p
  | p :: rest => p ++ sep ++ join sep rest
  end.

(** WhiteSpace and LineTerminator code units, the ones [trim] removes. *)
Definition is_js_space (c : code_unit) : bool :=
  ((9 <=? c) && (c <=? 13)) || (c =? 32) || (c =? 160) || (c =? 5760)
  || ((8192 <=? c) && (c <=? 8202)) || (c =? 8232) || (c =? 8233)
  || (c =? 8239) || (c =? 8287) || (c =? 12288) || (c =? 65279).

Fixpoint trim_start (s : jsstring) : jsstring :=
  match s with
  | [] => []
  | c :: rest => if is_js_space c then trim_start rest else s
  end.

Definition trim (s : jsstring) : jsstring :=
  rev (trim_start (rev (trim_start s))).

Fixpoint digits_of_pos (fuel : nat) (n : N) (acc : jsstring) : jsstring :=
  match fuel with
  | O => acc
  | S fuel' =>
    let acc' := (48 + n mod 10) :: acc in
    if n <? 10 then acc' else digits_of_pos fuel' (n / 10) acc'
  end.

(** Number::toString on a non-negative integer. *)
Definition decimal (n : N) : jsstring :=
  digits_of_pos (S (N.to_nat (N.log2 n))) n [].

(** ** JSON and the values the handlers see *)

Inductive json : Type :=
| JNull
| JBool (b : bool)
| JNum (x : float)
| JStr (s : jsstring)
| JArr (items : list json)
| JObj (props : list (jsstring * json)).

(** A run-time value: [undefined], something [JSON.parse] produced (or an
    object literal of the handler), or the [length] of a string or array. *)
Inductive value : Type :=
| undefined
| of_json (j : json)
| of_length (n : nat).

Inductive exn : Type :=
| Error (message : jsstring)
| TypeError
| SyntaxError
| FetchError
| InvalidParams.

Inductive completion (A : Type) : Type :=
| Return (a : A)
| Throw (e : exn).

Arguments Return {A} a.
Arguments Throw {A} e.

Definition and_then {A B} (c : completion A) (k : A -> completion B)
  : completion B :=
  match c with
  | Return a => k a
  | Throw e => Throw e
  end.

(** The own property [k] of an object; of two entries with one key the
    later one is the property. *)
Fixpoint own_property (props : list (jsstring * json)) (k : jsstring)
  : option json :=
  match props with
  | [] => None
  | (k', v) :: rest =>
    match own_property rest k with
    | Some v' => Some v'
    | None => if str_eqb k' k then Some v else None
    end
  end.

Definition has_own (props : list (jsstring * json)) (k : jsstring) : bool :=
  match own_property props k with Some _ => true | None => false end.

Definition json_truthy (j : json) : bool :=
  match j with
  | JNull => false
  | JBool b => b
  | JNum x => negb (PrimFloat.eqb x PrimFloat.zero || PrimFloat.is_nan x)
  | JStr s => negb (is_empty s)
  | JArr _ | JObj _ => true
  end.

Definition truthy (v : value) : bool :=
  match v with
  | undefined => false
  | of_json j => json_truthy j
  | of_length n => negb (Nat.eqb n 0)
  end.

(** [v.k] where [k] is one of the data property names the handlers read
    ([title], [id], [structureId], [spaces], [results]): no built-in
    prototype defines them, so only an object's own property answers. *)
Definition Get (v : value) (k : jsstring) : completion value :=
  match v with
  | undefined | of_json JNull => Throw TypeError
  | of_json (JObj props) =>
    Return (match own_property props k with
            | Some j => of_json j
            | None => undefined
            end)
  | _ => Return undefined
  end.

(** [v.length]. *)
Definition Get_length (v : value) : completion value :=
  match v with
  | undefined | of_json JNull => Throw TypeError
  | of_json (JStr s) => Return (of_length (length s))
  | of_json (JArr items) => Return (of_length (length items))
  | of_json (JObj props) => Get v (lit "length")
  | _ => Return undefined
  end.

(** [a ?? b]. *)
Definition nullish (a b : value) : value :=
  match a with
  | undefined | of_json JNull => b
  | _ => a
  end.

Fixpoint mapM {A B} (f : A -> completion B) (l : list A)
  : completion (list B) :=
  match l with
  | [] => Return []
  | x :: rest =>
    and_then (f x) (fun y =>
    and_then (mapM f rest) (fun ys => Return (y :: ys)))
  end.

(** [v.map(f)]: only an array has a callable [map]; a JSON object may own a
    [map] property, which is never a function. *)
Definition Array_map {B} (v : value) (f : value -> completion B)
  : completion (list B) :=
  match v with
  | of_json (JArr items) => mapM f (map of_json items)
  | _ => Throw TypeError
  end.

(** ** What the platform provides

    [JSON.parse] ([None]: it throws a SyntaxError), [JSON.stringify],
    Number::toString on a double, [URLSearchParams.prototype.toString], and
    the two format checks of the validation library ([.uuid()], [.url()]). *)

Class Runtime : Type := {
  JSON_parse : jsstring -> option json;
  JSON_stringify : json -> jsstring;
  Number_toString : float -> jsstring;
  URLSearchParams_toString : list (jsstring * jsstring) -> jsstring;
  zod_uuid : jsstring -> bool;
  zod_url : jsstring -> bool
}.

(** ToString of a JSON value, as a template literal applies it.  An array
    prints its elements joined by commas, [null] elements as nothing; a plain
    object prints through [Object.prototype.toString] unless it owns a
    [toString] property: that one is not callable, [valueOf] gives back the
    object, and the conversion throws. *)
Fixpoint json_ToString `{Runtime} (j : json) : completion jsstring :=
  match j with
  | JNull => Return (lit "null")
  | JBool b => Return (if b then lit "true" else lit "false")
  | JNum x => Return (Number_toString x)
  | JStr s => Return s
  | JArr items =>
    and_then
      ((fix elements (l : list json) : completion (list jsstring) :=
          match l with
          | [] => Return []
          | e :: rest =>
            and_then (match e with
                      | JNull => Return []
                      | _ => json_ToString e
                      end) (fun p =>
            and_then (elements rest) (fun ps => Return (p :: ps)))
          end) items)
      (fun parts => Return (join (lit ",") parts))
  | JObj props =>
    if has_own props (lit "toString") then Throw TypeError
    else Return (lit "[object Object]")
  end.

Definition ToString `{Runtime} (v : value) : completion jsstring :=
  match v with
  | undefined => Return (lit "undefined")
  | of_json j => json_ToString j
  | of_length n => Return (decimal (N.of_nat n))
  end.

(** ** The outbound side *)

Inductive Method : Type := GET | POST.

Record Request : Type := {
  req_url : jsstring;
  req_method : Method;
  req_headers : list (jsstring * jsstring);
  req_body : option jsstring
}.

(** [res_text] is what [res.text()] resolves to; [None] when it rejects. *)
Record Response : Type := {
  res_status : N;
  res_statusText : jsstring;
  res_text : option jsstring
}.

Inductive FetchResult : Type :=
| Responded (res : Response)
| Rejected.

(** [res.ok] *)
Definition res_ok (res : Response) : bool :=
  (200 <=? res_status res) && (res_status res <=? 299).

(** A handler runs against the list of requests sent so far, may add to it,
    and completes normally or throws. *)
Definition M (A : Type) : Type := list Request -> completion A * list Request.

Definition ret {A} (a : A) : M A := fun calls => (Return a, calls).

Definition throw {A} (e : exn) : M A := fun calls => (Throw e, calls).

Definition bind {A B} (m : M A) (k : A -> M B) : M B :=
  fun calls =>
    match m calls with
    | (Return a, calls') => k a calls'
    | (Throw e, calls') => (Throw e, calls')
    end.

Definition lift {A} (c : completion A) : M A := fun calls => (c, calls).

Declare Scope js_scope.
Delimit Scope js_scope with js.
Notation "x <- m ;; k" := (bind m (fun x => k))
  (at level 100, m at next level, right associativity) : js_scope.
Notation "m ;;; k" := (bind m (fun _ => k))
  (at level 100, right associativity) : js_scope.

Record Config : Type := {
  API_TOKEN : jsstring;
  DEFAULT_SPACE_ID : jsstring
}.

Definition API_BASE : jsstring := lit "https://api.capacities.io".

Record TextContent : Type := {
  type : jsstring;
  text : jsstring
}.

Record CallToolResult : Type := {
  content : list TextContent
}.

Definition text_result (t : jsstring) : CallToolResult :=
  {| content := [ {| type := lit "text"; text := t |} ] |}.

(** ** Argument shapes (the [inputSchema] of each tool) *)

Definition Schema (A : Type) : Type := value -> option A.

Definition z_string : Schema jsstring :=
  fun v => match v with of_json (JStr s) => Some s | _ => None end.

Definition z_boolean : Schema bool :=
  fun v => match v with of_json (JBool b) => Some b | _ => None end.

Definition z_check {A} (p : A -> bool) (s : Schema A) : Schema A :=
  fun v =>
    match s v with
    | Some a => if p a then Some a else None
    | None => None
    end.

(** [.min(n)] and [.max(n)] compare [length] on strings and on arrays. *)
Definition z_min {A} (n : N) : Schema (list A) -> Schema (list A) :=
  z_check (fun s => n <=? N.of_nat (length s)).

Definition z_max {A} (n : N) : Schema (list A) -> Schema (list A) :=
  z_check (fun s => N.of_nat (length s) <=? n).

Definition z_optional {A} (s : Schema A) : Schema (option A) :=
  fun v =>
    match v with
    | undefined => Some None
    | _ => option_map Some (s v)
    end.

Definition z_default {A} (d : A) (s : Schema (option A)) : Schema A :=
  fun v =>
    match s v with
    | Some (Some a) => Some a
    | Some None => Some d
    | None => None
    end.

Fixpoint all_of {A} (s : Schema A) (items : list json) : option (list A) :=
  match items with
  | [] => Some []
  | j :: rest =>
    match s (of_json j), all_of s rest with
    | Some a, Some l => Some (a :: l)
    | _, _ => None
    end
  end.

Definition z_array {A} (s : Schema A) : Schema (list A) :=
  fun v => match v with of_json (JArr items) => all_of s items | _ => None end.

(** The field [k] of the argument bag, [undefined] when it is not there. *)
Definition field (props : list (jsstring * json)) (k : jsstring) : value :=
  match own_property props k with
  | Some j => of_json j
  | None => undefined
  end.

Record SaveToDailyNoteArgs : Type := {
  dn_text : jsstring;
  dn_spaceId : option jsstring;
  dn_noTimestamp : bool
}.

Record SaveWeblinkArgs : Type := {
  wl_url : jsstring;
  wl_title : option jsstring;
  wl_description : option jsstring;
  wl_notes : option jsstring;
  wl_tags : option (list jsstring);
  wl_spaceId : option jsstring
}.

Record LookupArgs : Type := {
  lk_searchTerm : jsstring;
  lk_spaceId : option jsstring
}.

Definition z_spaceId `{Runtime} : Schema (option jsstring) :=
  z_optional (z_check zod_uuid z_string).

Definition save_to_daily_note_schema `{Runtime} (raw : json)
  : option SaveToDailyNoteArgs :=
  match raw with
  | JObj props =>
    match z_max 200000 (z_min 1 z_string) (field props (lit "text")),
          z_spaceId (field props (lit "spaceId")),
          z_default false (z_optional z_boolean)
            (field props (lit "noTimestamp")) with
    | Some t, Some sp, Some nt =>
      Some {| dn_text := t; dn_spaceId := sp; dn_noTimestamp := nt |}
    | _, _, _ => None
    end
  | _ => None
  end.

Definition save_weblink_schema `{Runtime} (raw : json)
  : option SaveWeblinkArgs :=
  match raw with
  | JObj props =>
    match z_check zod_url z_string (field props (lit "url")),
          z_optional (z_max 500 z_string) (field props (lit "title")),
          z_optional (z_max 1000 z_string)
            (field props (lit "description")),
          z_optional (z_max 200000 z_string) (field props (lit "notes")),
          z_optional (z_max 30 (z_array z_string))
            (field props (lit "tags")),
          z_spaceId (field props (lit "spaceId")) with
    | Some u, Some ti, Some de, Some no, Some ta, Some sp =>
      Some {| wl_url := u; wl_title := ti; wl_description := de;
              wl_notes := no; wl_tags := ta; wl_spaceId := sp |}
    | _, _, _, _, _, _ => None
    end
  | _ => None
  end.

Definition get_spaces_schema (raw : json) : option unit :=
  match raw with
  | JObj _ => Some tt
  | _ => None
  end.

Definition lookup_schema `{Runtime} (raw : json) : option LookupArgs :=
  match raw with
  | JObj props =>
    match z_min 1 z_string (field props (lit "searchTerm")),
          z_spaceId (field props (lit "spaceId")) with
    | Some st, Some sp => Some {| lk_searchTerm := st; lk_spaceId := sp |}
    | _, _ => None
    end
  | _ => None
  end.

(** ** The server *)

Section Server.

Context {RT : Runtime}.

(** The upstream API: what [fetch] meets, given the requests already sent
    and the one being sent. *)
Variable upstream : list Request -> Request -> FetchResult.

Variable cfg : Config.

Local Open Scope js_scope.

Definition fetch (req : Request) : M Response :=
  fun calls =>
    (match upstream calls req with
     | Responded res => Return res
     | Rejected => Throw FetchError
     end, calls ++ [req]).

Definition capacitiesRequest (path : jsstring) (method : Method)
    (body : option json) (params : option (list (jsstring * jsstring)))
  : M value :=
  let url := API_BASE ++ path in
  let url :=
    match params with
    | Some ps => url ++ lit "?" ++ URLSearchParams_toString ps
    | None => url
    end in
  res <- fetch {|
    req_url := url;
    req_method := method;
    req_headers :=
      [ (lit "Authorization", lit "Bearer " ++ API_TOKEN cfg);
        (lit "Content-Type", lit "application/json");
        (lit "Accept", lit "application/json") ];
    req_body :=
      match body with
      | Some b => if json_truthy b then Some (JSON_stringify b) else None
      | None => None
      end
  |} ;;
  if negb (res_ok res) then
    let text :=
      match res_text res with
      | Some t => t
      | None => res_statusText res
      end in
    throw (Error (lit "Capacities API error " ++ decimal (res_status res)
                  ++ lit ": " ++ text))
  else
    match res_text res with
    | None => throw FetchError
    | Some responseText =>
      if is_empty responseText || str_eqb (trim responseText) []
      then ret (of_json (JObj []))
      else
        match JSON_parse responseText with
        | Some j => ret (of_json j)
        | None => throw SyntaxError
        end
    end.

(** [spaceId ?? DEFAULT_SPACE_ID] *)
Definition targetSpace (spaceId : option jsstring) : jsstring :=
  match spaceId with
  | Some s => s
  | None => DEFAULT_SPACE_ID cfg
  end.

Definition no_space_result : CallToolResult :=
  text_result
    (lit "Error: No spaceId provided and CAPACITIES_SPACE_ID is not set.").

(** [...(s ? { k: s } : {})] for an optional string [s]. *)
Definition spread_string (k : jsstring) (s : option jsstring)
  : list (jsstring * json) :=
  match s with
  | Some s' => if is_empty s' then [] else [(k, JStr s')]
  | None => []
  end.

Definition capacities_save_to_daily_note (a : SaveToDailyNoteArgs)
  : M CallToolResult :=
  let text := dn_text a in
  let targetSpace := targetSpace (dn_spaceId a) in
  if is_empty targetSpace then ret no_space_result
  else
    capacitiesRequest (lit "/save-to-daily-note") POST
      (Some (JObj ([ (lit "spaceId", JStr targetSpace);
                     (lit "mdText", JStr text) ]
                   ++ (if dn_noTimestamp a
                       then [(lit "noTimeStamp", JBool true)]
                       else []))))
      None ;;;
    let preview :=
      if Nat.ltb 200 (length text) then slice0 200 text ++ lit "…"
      else text in
    ret (text_result
           (lit "✅ Сохранено в Daily Note:" ++ LF ++ LF ++ preview)).

Definition capacities_save_weblink (a : SaveWeblinkArgs)
  : M CallToolResult :=
  let url := wl_url a in
  let targetSpace := targetSpace (wl_spaceId a) in
  if is_empty targetSpace then ret no_space_result
  else
    result <- capacitiesRequest (lit "/save-weblink") POST
      (Some (JObj ([ (lit "spaceId", JStr targetSpace);
                     (lit "url", JStr url) ]
                   ++ spread_string (lit "titleOverwrite") (wl_title a)
                   ++ spread_string (lit "descriptionOverwrite")
                        (wl_description a)
                   ++ spread_string (lit "mdText") (wl_notes a)
                   ++ match wl_tags a with
                      | Some tags => [(lit "tags", JArr (map JStr tags))]
                      | None => []
                      end)))
      None ;;
    title <- lift (Get result (lit "title")) ;;
    shown_title <- lift (ToString (nullish title (of_json (JStr url)))) ;;
    id <- lift (Get result (lit "id")) ;;
    shown_id <-
      lift (ToString (nullish id (of_json (JStr (lit "n/a"))))) ;;
    ret (text_result
           (lit "✅ Ссылка сохранена в Capacities:" ++ LF ++ LF
            ++ lit "**" ++ shown_title ++ lit "**" ++ LF
            ++ url ++ LF ++ LF ++ lit "ID: " ++ shown_id)).

(** One line of the space list. *)
Definition space_line (s : value) : completion jsstring :=
  and_then (Get s (lit "title")) (fun title =>
  and_then (ToString title) (fun shown_title =>
  and_then (Get s (lit "id")) (fun id =>
  and_then (ToString id) (fun shown_id =>
  Return (lit "• **" ++ shown_title ++ lit "** — `" ++ shown_id
          ++ lit "`"))))).

Definition capacities_get_spaces (_ : unit) : M CallToolResult :=
  response <- capacitiesRequest (lit "/spaces") GET None None ;;
  spaces <- lift (Get response (lit "spaces")) ;;
  lines <- lift (Array_map spaces space_line) ;;
  let formatted := join LF lines in
  ret (text_result
         (lit "📚 Твои Capacities spaces:" ++ LF ++ LF ++ formatted)).

(** One entry of the lookup result list. *)
Definition result_entry (r : value) : completion jsstring :=
  and_then (Get r (lit "title")) (fun title =>
  and_then (ToString title) (fun shown_title =>
  and_then (Get r (lit "id")) (fun id =>
  and_then (ToString id) (fun shown_id =>
  and_then (Get r (lit "structureId")) (fun structureId =>
  and_then (ToString structureId) (fun shown_type =>
  Return (lit "• **" ++ shown_title ++ lit "**" ++ LF
          ++ lit "  ID: `" ++ shown_id ++ lit "`" ++ LF
          ++ lit "  Тип: " ++ shown_type))))))).

Definition capacities_lookup (a : LookupArgs) : M CallToolResult :=
  let searchTerm := lk_searchTerm a in
  let targetSpace := targetSpace (lk_spaceId a) in
  if is_empty targetSpace then ret no_space_result
  else
    response <- capacitiesRequest (lit "/lookup") POST
      (Some (JObj [ (lit "searchTerm", JStr searchTerm);
                    (lit "spaceId", JStr targetSpace) ]))
      None ;;
    results <- lift (Get response (lit "results")) ;;
    len <- lift (Get_length results) ;;
    if negb (truthy len) then
      ret (text_result
             (lit "Ничего не найдено по запросу: " ++ DQUOTE
              ++ searchTerm ++ DQUOTE))
    else
      entries <- lift (Array_map results result_entry) ;;
      let formatted := join (LF ++ LF) entries in
      ret (text_result
             (lit "🔍 Результаты для " ++ DQUOTE ++ searchTerm ++ DQUOTE
              ++ lit ":" ++ LF ++ LF ++ formatted)).

(** *** Dispatch *)

Inductive Tool : Type :=
| SaveToDailyNote
| SaveWeblink
| GetSpaces
| Lookup.

Definition tool_name (t : Tool) : jsstring :=
  match t with
  | SaveToDailyNote => lit "capacities_save_to_daily_note"
  | SaveWeblink => lit "capacities_save_weblink"
  | GetSpaces => lit "capacities_get_spaces"
  | Lookup => lit "capacities_lookup"
  end.

(** A tool invocation whose arguments passed the tool's schema. *)
Inductive Invocation : Type :=
| InvokeSaveToDailyNote (a : SaveToDailyNoteArgs)
| InvokeSaveWeblink (a : SaveWeblinkArgs)
| InvokeGetSpaces
| InvokeLookup (a : LookupArgs).

Definition validate (t : Tool) (raw : json) : option Invocation :=
  match t with
  | SaveToDailyNote =>
    option_map InvokeSaveToDailyNote (save_to_daily_note_schema raw)
  | SaveWeblink => option_map InvokeSaveWeblink (save_weblink_schema raw)
  | GetSpaces => option_map (fun _ => InvokeGetSpaces) (get_spaces_schema raw)
  | Lookup => option_map InvokeLookup (lookup_schema raw)
  end.

Definition handle (i : Invocation) : M CallToolResult :=
  match i with
  | InvokeSaveToDailyNote a => capacities_save_to_daily_note a
  | InvokeSaveWeblink a => capacities_save_weblink a
  | InvokeGetSpaces => capacities_get_spaces tt
  | InvokeLookup a => capacities_lookup a
  end.

(** A tool call as the server receives it: the arguments are checked
    against the schema, then the handler runs. *)
Definition call_tool (t : Tool) (raw : json) : M CallToolResult :=
  match validate t raw with
  | Some i => handle i
  | None => throw InvalidParams
  end.

(** The explicit [spaceId] argument of an invocation, if it has one. *)
Definition explicit_spaceId (i : Invocation) : option jsstring :=
  match i with
  | InvokeSaveToDailyNote a => dn_spaceId a
  | InvokeSaveWeblink a => wl_spaceId a
  | InvokeGetSpaces => None
  | InvokeLookup a => lk_spaceId a
  end.

(** Whether the handler gets as far as [capacitiesRequest]. *)
Definition reaches_invoke (i : Invocation) : bool :=
  match i with
  | InvokeGetSpaces => true
  | _ => negb (is_empty (targetSpace (explicit_spaceId i)))
  end.

End Server.

(** ** Start-up

    The top-level statements of the module, in order: read the environment,
    refuse to run without a token, register the four tools, pick the
    transport and start it.  [process.exit] ends the run where it stands.
    [runStdio] and [runHttp] are followed until the channel is up and their
    start-up line is written, or until their start rejects and the
    [catch] handler writes the fatal error and exits.  What the channel
    serves afterwards (the protocol exchange, the liveness route) is the
    work of the protocol SDK and of the HTTP framework. *)

Record Env : Type := {
  CAPACITIES_TOKEN : option jsstring;
  CAPACITIES_SPACE_ID : option jsstring;
  TRANSPORT : option jsstring;
  PORT : option jsstring
}.

Inductive Channel : Type :=
| Stdio
| Http (port : float).

(** What the host makes of start-up: [parseInt(s, 10)], and whether the
    start of a channel succeeds ([None]: [server.connect] resolves, the
    listener calls back) or rejects, with the text [String(err)] of the
    error. *)
Class Host : Type := {
  parseInt : jsstring -> float;
  comes_up : Channel -> option jsstring
}.

Record Process : Type := {
  stderr : list jsstring;
  registered : list jsstring;
  channel : option Channel
}.

Definition fresh_process : Process :=
  {| stderr := []; registered := []; channel := None |}.

(** A start-up step either goes on ([inl]) or exits with a status ([inr]). *)
Definition Boot (A : Type) : Type := Process -> (A + N) * Process.

Definition boot_then {A B} (m : Boot A) (k : A -> Boot B) : Boot B :=
  fun p =>
    match m p with
    | (inl a, p') => k a p'
    | (inr code, p') => (inr code, p')
    end.

Declare Scope boot_scope.
Delimit Scope boot_scope with boot.
Notation "m >> k" := (boot_then m (fun _ => k))
  (at level 100, right associativity) : boot_scope.

Definition skip : Boot unit := fun p => (inl tt, p).

Definition stderr_write (line : jsstring) : Boot unit :=
  fun p =>
    (inl tt, {| stderr := stderr p ++ [line];
                registered := registered p;
                channel := channel p |}).

Definition process_exit {A} (code : N) : Boot A := fun p => (inr code, p).

Definition registerTool (name : jsstring) : Boot unit :=
  fun p =>
    (inl tt, {| stderr := stderr p;
                registered := registered p ++ [name];
                channel := channel p |}).

(** The start of a channel: the channel is recorded when it comes up;
    the result is the rejection, if any. *)
Definition open_channel `{Host} (c : Channel) : Boot (option jsstring) :=
  fun p =>
    match comes_up c with
    | None =>
      (inl None, {| stderr := stderr p;
                    registered := registered p;
                    channel := Some c |})
    | Some err => (inl (Some err), p)
    end.

(** [.catch((err) => { ... })] at the two call sites. *)
Definition fatal {A} (err : jsstring) : Boot A :=
  boot_then (stderr_write (lit "Fatal error: " ++ err ++ LF))
    (fun _ => process_exit 1).

Definition runStdio `{Host} : Boot unit :=
  boot_then (open_channel Stdio) (fun rejection =>
    match rejection with
    | None => stderr_write (lit "Capacities MCP server started (stdio)" ++ LF)
    | Some err => fatal err
    end).

(** [process.env.X ?? d] *)
Definition env_or (x : option jsstring) (d : jsstring) : jsstring :=
  match x with
  | Some s => s
  | None => d
  end.

Definition config_of (env : Env) : Config :=
  {| API_TOKEN := env_or (CAPACITIES_TOKEN env) [];
     DEFAULT_SPACE_ID := env_or (CAPACITIES_SPACE_ID env) [] |}.

Definition runHttp {RT : Runtime} {HO : Host} (env : Env) : Boot unit :=
  let port := parseInt (env_or (PORT env) (lit "3000")) in
  boot_then (open_channel (Http port)) (fun rejection =>
    match rejection with
    | None =>
      stderr_write (lit "Capacities MCP server running on http://0.0.0.0:"
                    ++ Number_toString port ++ lit "/mcp" ++ LF)
    | Some err => fatal err
    end).

Definition main {RT : Runtime} {HO : Host} (env : Env) : Boot unit :=
  (let cfg := config_of env in
   (if is_empty (API_TOKEN cfg)
    then stderr_write (lit "ERROR: CAPACITIES_TOKEN env var is required"
                       ++ LF) >>
         process_exit 1
    else skip) >>
   registerTool (tool_name SaveToDailyNote) >>
   registerTool (tool_name SaveWeblink) >>
   registerTool (tool_name GetSpaces) >>
   registerTool (tool_name Lookup) >>
   if str_eqb (env_or (TRANSPORT env) (lit "stdio")) (lit "http")
   then runHttp env
   else runStdio)%boot.

Definition start {RT : Runtime} {HO : Host} (env : Env)
  : (unit + N) * Process :=
  main env fresh_process.

(** ** Vocabulary of the statements *)

(** [needle] occurs in [hay]. *)
Definition contains (needle hay : jsstring) : Prop :=
  exists pre post, hay = pre ++ needle ++ post.

(** [undefined] or [null]: what [??] replaces. *)
Definition is_nullish (v : value) : bool :=
  match v with
  | undefined | of_json JNull => true
  | _ => false
  end.

(** The value a 2xx response body stands for: the empty object when the body
    is blank, the parsed JSON otherwise. *)
Inductive carries `{Runtime} (body : jsstring) : value -> Prop :=
| carries_blank :
    trim body = [] -> carries body (of_json (JObj []))
| carries_json (j : json) :
    trim body <> [] -> JSON_parse body = Some j -> carries body (of_json j).

(** A handler step that sends nothing. *)
Definition quiet {A} (m : M A) : Prop :=
  forall calls, snd (m calls) = calls.

(** The request [capacitiesRequest] hands to [fetch]. *)
Definition outbound `{Runtime} (cfg : Config) (path : jsstring)
    (method : Method) (body : option json)
    (params : option (list (jsstring * jsstring))) : Request :=
  {| req_url :=
       match params with
       | Some ps => (API_BASE ++ path) ++ lit "?" ++ URLSearchParams_toString ps
       | None => API_BASE ++ path
       end;
     req_method := method;
     req_headers :=
       [ (lit "Authorization", lit "Bearer " ++ API_TOKEN cfg);
         (lit "Content-Type", lit "application/json");
         (lit "Accept", lit "application/json") ];
     req_body :=
       match body with
       | Some b => if json_truthy b then Some (JSON_stringify b) else None
       | None => None
       end |}.

(** What [capacitiesRequest] makes of the answer. *)
Definition settle `{Runtime} (r : FetchResult) : completion value :=
  match r with
  | Rejected => Throw FetchError
  | Responded res =>
    if res_ok res then
      match res_text res with
      | None => Throw FetchError
      | Some responseText =>
        if is_empty responseText || str_eqb (trim responseText) []
        then Return (of_json (JObj []))
        else
          match JSON_parse responseText with
          | Some j => Return (of_json j)
          | None => Throw SyntaxError
          end
      end
    else
      Throw (Error (lit "Capacities API error " ++ decimal (res_status res)
                    ++ lit ": "
                    ++ match res_text res with
                       | Some t => t
                       | None => res_statusText res
                       end))
  end.

(** A match as the lookup endpoint describes it. *)
Record Match : Type := {
  m_id : jsstring;
  m_structureId : jsstring;
  m_title : jsstring
}.

(** The JSON item [j] describes the match [m]. *)
Definition describes (j : json) (m : Match) : Prop :=
  Get (of_json j) (lit "title") = Return (of_json (JStr (m_title m)))
  /\ Get (of_json j) (lit "id") = Return (of_json (JStr (m_id m)))
  /\ Get (of_json j) (lit "structureId")
     = Return (of_json (JStr (m_structureId m))).

(** The bulleted entry of a match. *)
Definition bullet : jsstring := lit "•".

Definition entry_of (m : Match) : jsstring :=
  bullet ++ lit " **" ++ m_title m ++ lit "**" ++ LF
  ++ lit "  ID: `" ++ m_id m ++ lit "`" ++ LF
  ++ lit "  Тип: " ++ m_structureId m.

(** The request an invocation sends once it has a workspace. *)
Definition request_of `{Runtime} (cfg : Config) (i : Invocation) : Request :=
  match i with
  | InvokeSaveToDailyNote a =>
    outbound cfg (lit "/save-to-daily-note") POST
      (Some (JObj ([ (lit "spaceId", JStr (targetSpace cfg (dn_spaceId a)));
                     (lit "mdText", JStr (dn_text a)) ]
                   ++ (if dn_noTimestamp a
                       then [(lit "noTimeStamp", JBool true)]
                       else []))))
      None
  | InvokeSaveWeblink a =>
    outbound cfg (lit "/save-weblink") POST
      (Some (JObj ([ (lit "spaceId", JStr (targetSpace cfg (wl_spaceId a)));
                     (lit "url", JStr (wl_url a)) ]
                   ++ spread_string (lit "titleOverwrite") (wl_title a)
                   ++ spread_string (lit "descriptionOverwrite")
                        (wl_description a)
                   ++ spread_string (lit "mdText") (wl_notes a)
                   ++ match wl_tags a with
                      | Some tags => [(lit "tags", JArr (map JStr tags))]
                      | None => []
                      end)))
      None
  | InvokeGetSpaces => outbound cfg (lit "/spaces") GET None None
  | InvokeLookup a =>
    outbound cfg (lit "/lookup") POST
      (Some (JObj [ (lit "searchTerm", JStr (lk_searchTerm a));
                    (lit "spaceId", JStr (targetSpace cfg (lk_spaceId a))) ]))
      None
  end.

(** The arguments [a] with one optional field replaced. *)
Definition with_title (a : SaveWeblinkArgs) (t : option jsstring)
  : SaveWeblinkArgs :=
  {| wl_url := wl_url a; wl_title := t; wl_description := wl_description a;
     wl_notes := wl_notes a; wl_tags := wl_tags a;
     wl_spaceId := wl_spaceId a |}.

Definition with_description (a : SaveWeblinkArgs) (d : option jsstring)
  : SaveWeblinkArgs :=
  {| wl_url := wl_url a; wl_title := wl_title a; wl_description := d;
     wl_notes := wl_notes a; wl_tags := wl_tags a;
     wl_spaceId := wl_spaceId a |}.

Definition with_notes (a : SaveWeblinkArgs) (n : option jsstring)
  : SaveWeblinkArgs :=
  {| wl_url := wl_url a; wl_title := wl_title a;
     wl_description := wl_description a; wl_notes := n;
     wl_tags := wl_tags a; wl_spaceId := wl_spaceId a |}.

Definition with_tags (a : SaveWeblinkArgs) (t : option (list jsstring))
  : SaveWeblinkArgs :=
  {| wl_url := wl_url a; wl_title := wl_title a;
     wl_description := wl_description a; wl_notes := wl_notes a;
     wl_tags := t; wl_spaceId := wl_spaceId a |}.

(** The tools that act inside a workspace. *)
Definition needs_space (i : Invocation) : bool :=
  match i with
  | InvokeGetSpaces => false
  | _ => true
  end.

(** ** Test doubles

    A stand-in for the platform and a few upstreams, to run the model on
    concrete invocations.  The serialiser covers the values the handlers
    send (strings, booleans, arrays, objects); the parser knows the bodies
    the doubles answer with. *)

Definition demo_escape (c : code_unit) : jsstring :=
  if (c =? 34) || (c =? 92) then [92; c]
  else if c =? 10 then [92; 110]
  else [c].

Definition demo_quote (s : jsstring) : jsstring :=
  DQUOTE ++ flat_map demo_escape s ++ DQUOTE.

Fixpoint demo_stringify (j : json) : jsstring :=
  match j with
  | JNull => lit "null"
  | JBool b => if b then lit "true" else lit "false"
  | JNum _ => lit "0"
  | JStr s => demo_quote s
  | JArr items => lit "[" ++ join (lit ",") (map demo_stringify items) ++ lit "]"
  | JObj props =>
    lit "{"
    ++ join (lit ",")
         (map (fun kv => demo_quote (fst kv) ++ lit ":" ++ demo_stringify (snd kv))
              props)
    ++ lit "}"
  end.

Definition demo_match (id structureId title : string) : json :=
  JObj [ (lit "id", JStr (lit id));
         (lit "structureId", JStr (lit structureId));
         (lit "title", JStr (lit title)) ].

Definition demo_two_results : json :=
  JObj [ (lit "results",
          JArr [ demo_match "11" "RootPage" "Alpha";
                 demo_match "22" "RootTag" "Beta" ]) ].

Definition demo_no_results : json := JObj [ (lit "results", JArr []) ].

Definition demo_spaces : json :=
  JObj [ (lit "spaces",
          JArr [ JObj [ (lit "id", JStr (lit "s-1"));
                        (lit "title", JStr (lit "Home")) ] ]) ].

Definition demo_bodies : list json :=
  [ demo_two_results; demo_no_results; demo_spaces; JObj [] ].

Definition demo_parse (s : jsstring) : option json :=
  find (fun j => str_eqb (demo_stringify j) s) demo_bodies.

Definition demo_runtime : Runtime :=
  {| JSON_parse := demo_parse;
     JSON_stringify := demo_stringify;
     Number_toString := fun _ => lit "0";
     URLSearchParams_toString := fun _ => [];
     zod_uuid := fun s => Nat.eqb (length s) 36;
     zod_url := fun s => str_eqb (firstn 8 s) (lit "https://") |}.

Definition demo_space : jsstring := lit "3f2b8c1e-5d4a-4e6f-9a7b-0c1d2e3f4a5b".

Definition demo_config : Config :=
  {| API_TOKEN := lit "secret"; DEFAULT_SPACE_ID := demo_space |}.

Definition demo_config_no_space : Config :=
  {| API_TOKEN := lit "secret"; DEFAULT_SPACE_ID := [] |}.

Definition responds (status : N) (reason : string) (body : jsstring)
  : list Request -> Request -> FetchResult :=
  fun _ _ =>
    Responded {| res_status := status;
                 res_statusText := lit reason;
                 res_text := Some body |}.

Definition demo_url : jsstring := lit "https://example.com".

Definition demo_weblink_args : SaveWeblinkArgs :=
  {| wl_url := demo_url; wl_title := None; wl_description := None;
     wl_notes := None; wl_tags := None; wl_spaceId := None |}.

Definition demo_weblink_raw : list (jsstring * json) :=
  [ (lit "url", JStr demo_url) ].

Definition demo_lookup_args : LookupArgs :=
  {| lk_searchTerm := lit "alpha"; lk_spaceId := None |}.

Definition demo_note_args (n : nat) : SaveToDailyNoteArgs :=
  {| dn_text := repeat 120 n; dn_spaceId := None; dn_noTimestamp := false |}.

Definition demo_env (token space : option jsstring) : Env :=
  {| CAPACITIES_TOKEN := token; CAPACITIES_SPACE_ID := space;
     TRANSPORT := None; PORT := None |}.

(** A platform double that prints the port 3000. *)
Definition demo_runtime_ports : Runtime :=
  {| JSON_parse := demo_parse;
     JSON_stringify := demo_stringify;
     Number_toString := fun x =>
       if PrimFloat.eqb x 3000%float then lit "3000" else lit "NaN";
     URLSearchParams_toString := fun _ => [];
     zod_uuid := fun s => Nat.eqb (length s) 36;
     zod_url := fun s => str_eqb (firstn 8 s) (lit "https://") |}.

(** A host on which no channel comes up. *)
Definition demo_host_down : Host :=
  {| parseInt := fun s =>
       if str_eqb s (lit "3000") then 3000%float else PrimFloat.nan;
     comes_up := fun _ => Some (lit "Error: stdin closed") |}.

(** A host on which every channel comes up. *)
Definition demo_host : Host :=
  {| parseInt := fun s =>
       if str_eqb s (lit "3000") then 3000%float else PrimFloat.nan;
     comes_up := fun _ => None |}.

(** ** Further vocabulary *)

(** A space as the spaces endpoint describes it. *)
Record Space : Type := {
  s_id : jsstring;
  s_title : jsstring
}.

(** The JSON item [j] describes the space [s]. *)
Definition describes_space (j : json) (s : Space) : Prop :=
  Get (of_json j) (lit "title") = Return (of_json (JStr (s_title s)))
  /\ Get (of_json j) (lit "id") = Return (of_json (JStr (s_id s))).

(** The bulleted line of a space. *)
Definition line_of (s : Space) : jsstring :=
  bullet ++ lit " **" ++ s_title s ++ lit "** — `" ++ s_id s ++ lit "`".

(** An optional string that counts: present and not empty. *)
Definition nonempty (o : option jsstring) : option jsstring :=
  match o with
  | Some s => if is_empty s then None else Some s
  | None => None
  end.

(** The configuration [cfg] with another default workspace. *)
Definition with_default (cfg : Config) (d : jsstring) : Config :=
  {| API_TOKEN := API_TOKEN cfg; DEFAULT_SPACE_ID := d |}.

(** The property of the answer that a listing tool iterates over. *)
Definition listed_property (i : Invocation) : option jsstring :=
  match i with
  | InvokeGetSpaces => Some (lit "spaces")
  | InvokeLookup _ => Some (lit "results")
  | _ => None
  end.

(** An optional argument holding an identifier: left out, or a string of
    the identifier format. *)
Definition optional_uuid `{Runtime} (v : value) (o : option jsstring) : Prop :=
  (v = undefined /\ o = None)
  \/ (exists s, v = of_json (JStr s) /\ zod_uuid s = true /\ o = Some s).

(** An optional text argument of at most [bound] code units. *)
Definition optional_text (bound : N) (v : value) (o : option jsstring)
  : Prop :=
  (v = undefined /\ o = None)
  \/ (exists s,
        v = of_json (JStr s) /\ N.of_nat (length s) <= bound /\ o = Some s).

(** An optional list of at most [bound] strings. *)
Definition optional_strings (bound : N) (v : value)
    (o : option (list jsstring)) : Prop :=
  (v = undefined /\ o = None)
  \/ (exists l,
        v = of_json (JArr (map JStr l))
        /\ N.of_nat (length l) <= bound /\ o = Some l).

Definition demo_spaces_with_null : json :=
  JObj [ (lit "spaces",
          JArr [ JObj [ (lit "id", JStr (lit "s-1"));
                        (lit "title", JStr (lit "Home")) ];
                 JNull ]) ].

Definition demo_saved_link : json :=
  JObj [ (lit "id", JStr (lit "w-9")); (lit "title", JStr (lit "Example")) ].

Definition more_bodies : list json :=
  [ JNull; demo_spaces_with_null; demo_saved_link ].

(** The platform double, with a parser that knows a few more bodies. *)
Definition demo_runtime_more : Runtime :=
  {| JSON_parse := fun s =>
       match find (fun j => str_eqb (demo_stringify j) s) more_bodies with
       | Some j => Some j
       | None => demo_parse s
       end;
     JSON_stringify := demo_stringify;
     Number_toString := fun _ => lit "0";
     URLSearchParams_toString := fun _ => [];
     zod_uuid := fun s => Nat.eqb (length s) 36;
     zod_url := fun s => str_eqb (firstn 8 s) (lit "https://") |}.

(** An upstream out of reach: [fetch] rejects. *)
Definition unreachable : list Request -> Request -> FetchResult :=
  fun _ _ => Rejected.

(** An upstream whose body cannot be read. *)
Definition unreadable (status : N) (reason : string)
  : list Request -> Request -> FetchResult :=
  fun _ _ =>
    Responded {| res_status := status;
                 res_statusText := lit reason;
                 res_text := None |}.

Definition demo_note_raw : list (jsstring * json) :=
  [ (lit "text", JStr (lit "remember the milk"));
    (lit "noTimestamp", JBool true) ].


Definition demo_full_weblink_args : SaveWeblinkArgs :=
  {| wl_url := demo_url;
     wl_title := Some (lit "Example");
     wl_description := Some [];
     wl_notes := Some (lit "read later");
     wl_tags := Some [ lit "web"; lit "demo" ];
     wl_spaceId := Some demo_space |}.

Definition demo_space_args : LookupArgs :=
  {| lk_searchTerm := lit "alpha"; lk_spaceId := Some demo_space |}.

Definition demo_http_env : Env :=
  {| CAPACITIES_TOKEN := Some (lit "secret"); CAPACITIES_SPACE_ID := None;
     TRANSPORT := Some (lit "http"); PORT := None |}.

Definition ok_response (body : jsstring) : Response :=
  {| res_status := 200; res_statusText := lit "OK"; res_text := Some body |}.

(** * Properties *)

Arguments lit : simpl never.
Arguments decimal : simpl never.
Arguments trim : simpl never.

(** ** Strings *)

Example lit_ascii : lit "n/a" = [110; 47; 97].
Proof. reflexivity. Qed.

Example lit_ellipsis : lit "…" = [8230].
Proof. reflexivity. Qed.

Example lit_astral : lit "📚" = [55357; 56538].
Proof. reflexivity. Qed.

Example decimal_500 : decimal 500 = lit "500".
Proof. reflexivity. Qed.

Example decimal_0 : decimal 0 = lit "0".
Proof. reflexivity. Qed.

Example trim_blank : trim (lit "  " ++ LF) = [].
Proof. reflexivity. Qed.

Example decimal_404 : decimal 404 = lit "404".
Proof. reflexivity. Qed.

Example trim_keeps_inner : trim (lit " a b ") = lit "a b".
Proof. reflexivity. Qed.

Example includes_middle : includes (lit "00") (lit "5005") = true.
Proof. reflexivity. Qed.

Example later_key_wins :
  own_property [ (lit "id", JStr (lit "old")); (lit "id", JStr (lit "new")) ]
    (lit "id")
  = Some (JStr (lit "new")).
Proof. reflexivity. Qed.

Example array_prints_joined :
  ToString (H := demo_runtime)
    (of_json (JArr [ JStr (lit "a"); JNull; JBool true ]))
  = Return (lit "a,,true").
Proof. reflexivity. Qed.

Example object_prints_tag :
  ToString (H := demo_runtime) (of_json (JObj [ (lit "id", JNull) ]))
  = Return (lit "[object Object]").
Proof. reflexivity. Qed.

Example object_with_toString_throws :
  ToString (H := demo_runtime) (of_json (JObj [ (lit "toString", JNull) ]))
  = Throw TypeError.
Proof. reflexivity. Qed.

Example read_of_null_throws :
  Get (of_json JNull) (lit "title") = Throw TypeError.
Proof. reflexivity. Qed.

Example nullish_keeps_false :
  nullish (of_json (JBool false)) (of_json (JStr (lit "n/a")))
  = of_json (JBool false).
Proof. reflexivity. Qed.

Example map_of_string_throws :
  Array_map (of_json (JStr (lit "abc"))) (fun v => Return v)
  = Throw TypeError.
Proof. reflexivity. Qed.

Lemma str_eqb_eq (a b : jsstring) : str_eqb a b = true <-> a = b.
Proof.
  revert b; induction a as [|x a IH]; intros [|y b]; simpl;
    try (split; [discriminate | discriminate]); [tauto|].
  rewrite andb_true_iff, N.eqb_eq, IH.
  split; [intros [-> ->]; reflexivity | intros E; inversion E; auto].
Qed.

Lemma str_eqb_refl (a : jsstring) : str_eqb a a = true.
Proof. apply str_eqb_eq; reflexivity. Qed.

Lemma blank_iff (s : jsstring) :
  is_empty s || str_eqb (trim s) [] = true <-> trim s = [].
Proof.
  rewrite orb_true_iff, str_eqb_eq. split; [|auto].
  intros [E|E]; [|exact E]. destruct s; [reflexivity|discriminate].
Qed.

Lemma not_blank_iff (s : jsstring) :
  is_empty s || str_eqb (trim s) [] = false <-> trim s <> [].
Proof.
  rewrite <- blank_iff. destruct (is_empty s || str_eqb (trim s) []);
    split; congruence.
Qed.

Lemma contains_here (needle pre post : jsstring) :
  contains needle (pre ++ needle ++ post).
Proof. exists pre, post; reflexivity. Qed.

Lemma contains_app_r (needle pre hay : jsstring) :
  contains needle hay -> contains needle (pre ++ hay).
Proof.
  intros (a & b & ->). exists (pre ++ a), b. now rewrite <- app_assoc.
Qed.

Lemma contains_app_l (needle hay post : jsstring) :
  contains needle hay -> contains needle (hay ++ post).
Proof.
  intros (a & b & ->). exists a, (b ++ post). now rewrite <- !app_assoc.
Qed.

Lemma contains_end (needle pre : jsstring) : contains needle (pre ++ needle).
Proof. exists pre, []. now rewrite app_nil_r. Qed.

Lemma contains_start (needle post : jsstring) :
  contains needle (needle ++ post).
Proof. exists [], post; reflexivity. Qed.

Lemma contains_self (needle : jsstring) : contains needle needle.
Proof. exists [], []. now rewrite app_nil_r. Qed.

(** Find the needle among the pieces of a concatenation. *)
Ltac find_inside :=
  solve [ apply contains_start
        | apply contains_self
        | apply contains_app_r; find_inside ].

Lemma starts_with_spec (needle hay : jsstring) :
  starts_with needle hay = true <-> exists post, hay = needle ++ post.
Proof.
  revert hay; induction needle as [|x needle IH]; intros hay; simpl.
  - split; [intros _; exists hay; reflexivity | reflexivity].
  - destruct hay as [|y hay].
    + split; [discriminate | intros [post E]; discriminate E].
    + rewrite andb_true_iff, N.eqb_eq, IH. split.
      * intros [-> [post ->]]. exists post; reflexivity.
      * intros [post E]. inversion E; subst. split; [reflexivity|].
        exists post; reflexivity.
Qed.

Lemma includes_spec (needle hay : jsstring) :
  includes needle hay = true <-> contains needle hay.
Proof.
  induction hay as [|c hay IH]; simpl; rewrite orb_true_iff, starts_with_spec.
  - split.
    + intros [[post E]|E]; [|discriminate]. exists [], post; exact E.
    + intros ([|c pre] & post & E); [|discriminate]. left; exists post; exact E.
  - rewrite IH. split.
    + intros [[post E]|(pre & post & ->)].
      * exists [], post; exact E.
      * exists (c :: pre), post; reflexivity.
    + intros ([|c' pre] & post & E).
      * left; exists post; exact E.
      * inversion E; subst. right; exists pre, post; reflexivity.
Qed.

Lemma not_includes (needle hay : jsstring) :
  includes needle hay = false -> ~ contains needle hay.
Proof. intros H C. apply includes_spec in C. congruence. Qed.

(** ** Objects *)

Lemma own_property_set props k v k' :
  own_property (props ++ [(k, v)]) k'
  = if str_eqb k k' then Some v else own_property props k'.
Proof.
  induction props as [|[k0 v0] props IH]; simpl.
  - reflexivity.
  - rewrite IH. destruct (str_eqb k k'); reflexivity.
Qed.

Lemma field_set props k v :
  field (props ++ [(k, v)]) k = of_json v.
Proof. unfold field. now rewrite own_property_set, str_eqb_refl. Qed.

Lemma field_keep props k v k' :
  str_eqb k k' = false -> field (props ++ [(k, v)]) k' = field props k'.
Proof. intros H. unfold field. now rewrite own_property_set, H. Qed.

Lemma nullish_default a b : is_nullish a = true -> nullish a b = b.
Proof. destruct a as [|[]|]; simpl; congruence. Qed.

(** ** Steps that send nothing *)

Create HintDb quiet.

Lemma quiet_ret {A} (a : A) : quiet (ret a).
Proof. intros calls; reflexivity. Qed.

Lemma quiet_throw {A} (e : exn) : quiet (@throw A e).
Proof. intros calls; reflexivity. Qed.

Lemma quiet_lift {A} (c : completion A) : quiet (lift c).
Proof. intros calls; reflexivity. Qed.

Lemma quiet_bind {A B} (m : M A) (k : A -> M B) :
  quiet m -> (forall a, quiet (k a)) -> quiet (bind m k).
Proof.
  intros Hm Hk calls. unfold bind. specialize (Hm calls).
  destruct (m calls) as [[a|e] calls']; simpl in *; subst;
    [apply Hk | reflexivity].
Qed.

Lemma quiet_if {A} (b : bool) (m1 m2 : M A) :
  quiet m1 -> quiet m2 -> quiet (if b then m1 else m2).
Proof. destruct b; auto. Qed.

#[local] Hint Resolve quiet_ret quiet_throw quiet_lift quiet_if : quiet.
#[local] Hint Extern 2 (quiet (bind _ _)) =>
  apply quiet_bind; [|intro] : quiet.

Section Facts.

Context {RT : Runtime}.
Variable upstream : list Request -> Request -> FetchResult.
Variable cfg : Config.

(** ** The HTTP helper *)

Lemma capacitiesRequest_unfold path method body params calls :
  capacitiesRequest upstream cfg path method body params calls
  = (settle (upstream calls (outbound cfg path method body params)),
     calls ++ [outbound cfg path method body params]).
Proof.
  unfold capacitiesRequest, bind, fetch, settle.
  fold (outbound cfg path method body params).
  destruct (upstream calls _) as [res|]; [|reflexivity].
  destruct (res_ok res); simpl; [|reflexivity].
  destruct (res_text res) as [responseText|]; [|reflexivity].
  destruct (is_empty responseText || str_eqb (trim responseText) []);
    [reflexivity|].
  destruct (JSON_parse responseText); reflexivity.
Qed.

(** A request followed by steps that send nothing: one call, and the
    outcome is the continuation's on what the answer settles to. *)
Lemma request_then {A} path method body params (k : value -> M A) calls :
  (forall v, quiet (k v)) ->
  bind (capacitiesRequest upstream cfg path method body params) k calls
  = (match settle (upstream calls (outbound cfg path method body params))
     with
     | Return v =>
       fst (k v (calls ++ [outbound cfg path method body params]))
     | Throw e => Throw e
     end,
     calls ++ [outbound cfg path method body params]).
Proof.
  intros Hk. unfold bind. rewrite capacitiesRequest_unfold.
  destruct (settle _) as [v|e]; [|reflexivity].
  rewrite (surjective_pairing (k v _)). now rewrite Hk.
Qed.

Lemma settle_ok res body v :
  res_ok res = true -> res_text res = Some body -> carries body v ->
  settle (Responded res) = Return v.
Proof.
  intros Hok Hbody Hv. unfold settle. rewrite Hok, Hbody.
  destruct Hv as [Hblank | j Hfull Hparse].
  - apply blank_iff in Hblank. now rewrite Hblank.
  - apply not_blank_iff in Hfull. now rewrite Hfull, Hparse.
Qed.

Lemma settle_error res :
  res_ok res = false ->
  settle (Responded res)
  = Throw (Error (lit "Capacities API error " ++ decimal (res_status res)
                  ++ lit ": "
                  ++ match res_text res with
                     | Some t => t
                     | None => res_statusText res
                     end)).
Proof. intros Hok. unfold settle. now rewrite Hok. Qed.

(** ** What a handler sends *)

Ltac run_handler :=
  match goal with
  | |- context [is_empty ?s] => destruct (is_empty s) eqn:?; simpl
  | _ => idtac
  end;
  try reflexivity;
  try (rewrite request_then by auto 20 with quiet).

Lemma handle_run i calls :
  handle upstream cfg i calls
  = if reaches_invoke cfg i
    then (fst (handle upstream cfg i calls), calls ++ [request_of cfg i])
    else (Return (no_space_result), calls).
Proof.
  destruct i as [a|a| |a]; simpl;
    unfold capacities_save_to_daily_note, capacities_save_weblink,
      capacities_get_spaces, capacities_lookup;
    run_handler; reflexivity.
Qed.

Lemma handle_calls i calls :
  snd (handle upstream cfg i calls)
  = calls ++ (if reaches_invoke cfg i then [request_of cfg i] else []).
Proof.
  rewrite handle_run. destruct (reaches_invoke cfg i); simpl;
    [reflexivity | now rewrite app_nil_r].
Qed.

Lemma handle_no_space i calls :
  reaches_invoke cfg i = false ->
  handle upstream cfg i calls = (Return no_space_result, calls).
Proof. intros H. rewrite handle_run. now rewrite H. Qed.

(** The request an invocation is seen to send is the one its handler
    builds, and it is the only one. *)
Lemma sent_inv i calls req rest :
  snd (handle upstream cfg i calls) = calls ++ req :: rest ->
  reaches_invoke cfg i = true /\ req = request_of cfg i /\ rest = [].
Proof.
  rewrite handle_calls. intros H. apply app_inv_head in H.
  destruct (reaches_invoke cfg i); [|discriminate].
  inversion H; auto.
Qed.

(** Whatever the helper throws, the handler throws. *)
Lemma handle_throws i calls e :
  reaches_invoke cfg i = true ->
  settle (upstream calls (request_of cfg i)) = Throw e ->
  fst (handle upstream cfg i calls) = Throw e.
Proof.
  intros Hr He.
  destruct i as [a|a| |a]; simpl in *;
    unfold capacities_save_to_daily_note, capacities_save_weblink,
      capacities_get_spaces, capacities_lookup;
    try (destruct (is_empty _); [discriminate|]);
    rewrite request_then by auto 20 with quiet;
    simpl; now rewrite He.
Qed.

(** ** Workspace resolution *)

(** C1 (as amended): each of the three tools that act inside a workspace
    (save_to_daily_note, save_weblink, lookup), invoked with no explicit
    spaceId while no default workspace is configured, returns the textual
    error reply and sends nothing; get_spaces takes no workspace id and sends
    its one request all the same. *)
Theorem C1_no_workspace_no_call i calls :
  needs_space i = true ->
  explicit_spaceId i = None ->
  DEFAULT_SPACE_ID cfg = [] ->
  handle upstream cfg i calls
  = (Return (text_result
       (lit "Error: No spaceId provided and CAPACITIES_SPACE_ID is not set.")),
     calls)
  /\ snd (handle upstream cfg InvokeGetSpaces calls)
     = calls ++ [request_of cfg InvokeGetSpaces].
Proof.
  intros Hneeds Hnone Hdefault. split.
  - apply handle_no_space.
    destruct i; try discriminate; simpl in *;
      unfold targetSpace; now rewrite Hnone, Hdefault.
  - now rewrite handle_calls.
Qed.

(** ** One request per invocation *)

(** C7: a tool invocation sends at most one request, exactly one when it
    gets as far as the invoke step (its arguments pass the schema and a
    workspace is resolved, or the tool needs none), whatever the upstream
    answers, errors included. *)
Theorem C7_one_call_per_invocation t raw calls :
  exists made,
    snd (call_tool upstream cfg t raw calls) = calls ++ made
    /\ (length made <= 1)%nat
    /\ length made
       = match validate t raw with
         | Some i => if reaches_invoke cfg i then 1%nat else 0%nat
         | None => 0%nat
         end.
Proof.
  unfold call_tool. destruct (validate t raw) as [i|].
  - rewrite handle_calls.
    exists (if reaches_invoke cfg i then [request_of cfg i] else []).
    destruct (reaches_invoke cfg i); simpl; auto.
  - exists []. simpl. rewrite app_nil_r. auto.
Qed.

(** ** Shape of the requests *)

(** C8: every request a tool sends carries the bearer credential in its
    Authorization header and application/json as Content-Type and as Accept,
    and its body, when it has one, is the JSON serialisation of an object. *)
Theorem C8_requests_are_authenticated_json i calls made req :
  snd (handle upstream cfg i calls) = calls ++ made ->
  In req made ->
  req_headers req
  = [ (lit "Authorization", lit "Bearer " ++ API_TOKEN cfg);
      (lit "Content-Type", lit "application/json");
      (lit "Accept", lit "application/json") ]
  /\ (req_body req = None
      \/ exists props, req_body req = Some (JSON_stringify (JObj props))).
Proof.
  rewrite handle_calls. intros H Hin. apply app_inv_head in H. subst made.
  destruct (reaches_invoke cfg i); [|contradiction].
  destruct Hin as [<-|[]].
  destruct i as [a|a| |a]; simpl; split; eauto.
Qed.

(** ** Upstream answers *)

(** Run the steps of the monads. *)
Ltac steps :=
  cbv beta iota delta [fst snd bind ret lift throw and_then].

(** Step into a handler that reaches the invoke step ([Hreach]) and whose
    answer settles as [Hsettle] says. *)
Ltac enter_handler Hreach Hsettle :=
  unfold handle, capacities_save_to_daily_note, capacities_save_weblink,
    capacities_get_spaces, capacities_lookup;
  cbv zeta;
  unfold reaches_invoke, explicit_spaceId in Hreach;
  try (destruct (is_empty _); [discriminate Hreach|]);
  rewrite request_then by auto 20 with quiet;
  unfold request_of in Hsettle;
  rewrite Hsettle.

Lemma res_ok_false res :
  res_status res < 200 \/ 299 < res_status res -> res_ok res = false.
Proof.
  intros H. unfold res_ok. apply andb_false_iff.
  destruct H; [left; apply N.leb_gt | right; apply N.leb_gt]; assumption.
Qed.

(** C3: when the request of an invocation is answered with a status outside
    200..299, the invocation throws, no further request follows, and the
    message of the error holds the status in decimal and the text of the
    response body. *)
Theorem C3_upstream_error_fails i calls req rest res :
  snd (handle upstream cfg i calls) = calls ++ req :: rest ->
  upstream calls req = Responded res ->
  res_status res < 200 \/ 299 < res_status res ->
  rest = []
  /\ exists message,
       fst (handle upstream cfg i calls) = Throw (Error message)
       /\ contains (decimal (res_status res)) message
       /\ (forall body, res_text res = Some body -> contains body message)
       /\ (res_status res = 500 ->
           res_text res = Some (lit "server exploded") ->
           contains (lit "500") message
           /\ contains (lit "server exploded") message).
Proof.
  intros Hsent Hres Hstatus.
  destruct (sent_inv _ _ _ _ Hsent) as (Hreach & -> & ->).
  split; [reflexivity|].
  eexists. split; [|split; [|split]].
  - apply handle_throws; [assumption|].
    rewrite Hres. apply settle_error, res_ok_false, Hstatus.
  - apply contains_here.
  - intros body ->. rewrite !app_assoc. apply contains_end.
  - intros -> ->. split.
    + change (decimal 500) with (lit "500"). apply contains_here.
    + rewrite !app_assoc. apply contains_end.
Qed.

(** C4: when the note is saved (a workspace is resolved and the upstream
    answers 2xx with a blank or JSON body), the reply is the confirmation
    line followed by a preview: the whole text when it has at most 200 code
    units, otherwise its first 200 code units and an ellipsis. *)
Theorem C4_daily_note_preview a calls req rest res body v :
  snd (handle upstream cfg (InvokeSaveToDailyNote a) calls)
  = calls ++ req :: rest ->
  upstream calls req = Responded res ->
  res_ok res = true ->
  res_text res = Some body ->
  carries body v ->
  exists preview,
    fst (handle upstream cfg (InvokeSaveToDailyNote a) calls)
    = Return (text_result
                (lit "✅ Сохранено в Daily Note:" ++ LF ++ LF ++ preview))
    /\ ((length (dn_text a) <= 200)%nat -> preview = dn_text a)
    /\ ((200 < length (dn_text a))%nat ->
        preview = firstn 200 (dn_text a) ++ lit "…"
        /\ length (firstn 200 (dn_text a)) = 200%nat).
Proof.
  intros Hsent Hres Hok Hbody Hv.
  destruct (sent_inv _ _ _ _ Hsent) as (Hreach & -> & _).
  pose proof (settle_ok _ _ _ Hok Hbody Hv) as Hsettle.
  rewrite <- Hres in Hsettle.
  enter_handler Hreach Hsettle. steps.
  eexists. split; [reflexivity|]. unfold slice0.
  destruct (Nat.ltb_spec 200 (length (dn_text a))); split; intros;
    try lia; try reflexivity.
  split; [reflexivity|]. apply firstn_length_le. lia.
Qed.

(** ** Blank bodies *)

(** The helper itself answers a blank 2xx body with the empty object. *)
Lemma capacitiesRequest_blank_body path method payload params calls res body :
  upstream calls (outbound cfg path method payload params) = Responded res ->
  res_ok res = true ->
  res_text res = Some body ->
  trim body = [] ->
  fst (capacitiesRequest upstream cfg path method payload params calls)
  = Return (of_json (JObj [])).
Proof.
  intros Hres Hok Hbody Hblank. rewrite capacitiesRequest_unfold, Hres.
  apply (settle_ok _ _ _ Hok Hbody). now constructor.
Qed.

(** The two saving tools go on to their confirmation. *)
Lemma blank_body_saves i calls res body :
  needs_space i = true ->
  (forall a, i <> InvokeLookup a) ->
  reaches_invoke cfg i = true ->
  upstream calls (request_of cfg i) = Responded res ->
  res_ok res = true ->
  res_text res = Some body ->
  trim body = [] ->
  exists reply, fst (handle upstream cfg i calls) = Return reply.
Proof.
  intros Hneeds Hsave Hreach Hres Hok Hbody Hblank.
  assert (Hsettle : settle (upstream calls (request_of cfg i))
                    = Return (of_json (JObj []))).
  { rewrite Hres. apply (settle_ok _ _ _ Hok Hbody). now constructor. }
  destruct i as [a|a| |a]; try discriminate.
  - enter_handler Hreach Hsettle. steps. eexists; reflexivity.
  - enter_handler Hreach Hsettle. steps. eexists; reflexivity.
  - now elim (Hsave a).
Qed.

(** C2 fails at get_spaces (and at lookup): a 2xx answer with a blank body
    settles to the empty object, the handler then reads [spaces] (or
    [results]) off it, gets [undefined], and throws a TypeError on the next
    property read instead of replying. *)
Theorem C2_blank_body_breaks_listing i calls res body :
  needs_space i = false \/ (exists a, i = InvokeLookup a) ->
  reaches_invoke cfg i = true ->
  upstream calls (request_of cfg i) = Responded res ->
  res_ok res = true ->
  res_text res = Some body ->
  trim body = [] ->
  handle upstream cfg i calls
  = (Throw TypeError, calls ++ [request_of cfg i]).
Proof.
  intros Hlist Hreach Hres Hok Hbody Hblank.
  assert (Hsettle : settle (upstream calls (request_of cfg i))
                    = Return (of_json (JObj []))).
  { rewrite Hres. apply (settle_ok _ _ _ Hok Hbody). now constructor. }
  rewrite handle_run, Hreach. f_equal.
  destruct i as [a|a| |a];
    try (destruct Hlist as [Hlist|[a' Hlist]]; discriminate).
  - enter_handler Hreach Hsettle. reflexivity.
  - enter_handler Hreach Hsettle. reflexivity.
Qed.

(** ** Saving a web link *)

(** C5: given only a url, save_weblink sends a body of exactly two fields,
    the resolved workspace id and the url; and on a 2xx answer whose value
    has no title (or no id), the reply shows the url where the title goes
    (the literal n/a where the id goes). *)
Theorem C5_weblink_url_only a calls req rest :
  wl_title a = None ->
  wl_description a = None ->
  wl_notes a = None ->
  wl_tags a = None ->
  snd (handle upstream cfg (InvokeSaveWeblink a) calls)
  = calls ++ req :: rest ->
  req_body req
  = Some (JSON_stringify
            (JObj [ (lit "spaceId", JStr (targetSpace cfg (wl_spaceId a)));
                    (lit "url", JStr (wl_url a)) ]))
  /\ forall res body v title id,
       upstream calls req = Responded res ->
       res_ok res = true ->
       res_text res = Some body ->
       carries body v ->
       Get v (lit "title") = Return title ->
       Get v (lit "id") = Return id ->
       (is_nullish title = true -> is_nullish id = true ->
        fst (handle upstream cfg (InvokeSaveWeblink a) calls)
        = Return (text_result
                    (lit "✅ Ссылка сохранена в Capacities:" ++ LF ++ LF
                     ++ lit "**" ++ wl_url a ++ lit "**" ++ LF
                     ++ wl_url a ++ LF ++ LF ++ lit "ID: " ++ lit "n/a")))
       /\ (forall reply,
             fst (handle upstream cfg (InvokeSaveWeblink a) calls)
             = Return reply ->
             exists shown_title shown_id,
               reply
               = text_result
                   (lit "✅ Ссылка сохранена в Capacities:" ++ LF ++ LF
                    ++ lit "**" ++ shown_title ++ lit "**" ++ LF
                    ++ wl_url a ++ LF ++ LF ++ lit "ID: " ++ shown_id)
               /\ (is_nullish title = true -> shown_title = wl_url a)
               /\ (is_nullish id = true -> shown_id = lit "n/a")).
Proof.
  intros Hti Hde Hno Hta Hsent.
  destruct (sent_inv _ _ _ _ Hsent) as (Hreach & -> & _).
  split.
  - simpl. now rewrite Hti, Hde, Hno, Hta.
  - intros res body v title id Hres Hok Hbody Hv Htitle Hid.
    pose proof (settle_ok _ _ _ Hok Hbody Hv) as Hsettle.
    rewrite <- Hres in Hsettle.
    enter_handler Hreach Hsettle. steps. rewrite Htitle, Hid. split.
    + intros Nt Ni. now rewrite !nullish_default by assumption.
    + intros reply.
      destruct (ToString (nullish title _)) as [shown_title|] eqn:Et;
        [|discriminate].
      destruct (ToString (nullish id _)) as [shown_id|] eqn:Ei;
        [|discriminate].
      intros E; inversion E; subst reply.
      exists shown_title, shown_id. split; [reflexivity|].
      split; intros N; rewrite nullish_default in * by assumption;
        simpl in *; congruence.
Qed.

(** ** Looking content up *)

Lemma result_entry_describes j m :
  describes j m -> result_entry (of_json j) = Return (entry_of m).
Proof.
  intros (Ht & Hi & Hs). unfold result_entry. rewrite Ht, Hi, Hs.
  cbn [and_then ToString json_ToString].
  unfold entry_of, bullet.
  change (lit "• **") with (lit "•" ++ lit " **").
  now rewrite <- !app_assoc.
Qed.

Lemma entries_of_matches items ms :
  Forall2 describes items ms ->
  mapM result_entry (map of_json items) = Return (map entry_of ms).
Proof.
  induction 1 as [|j m items ms Hjm _ IH]; simpl; [reflexivity|].
  now rewrite (result_entry_describes _ _ Hjm), IH.
Qed.

(** C6: on a 2xx answer whose [results] is an array of matches, lookup
    replies, for no match, with the nothing-found line quoting the search
    term and carrying no bullet of its own; for N matches, with the heading
    and exactly the N bulleted entries, in the upstream's order, each holding
    the title, the id and the content type of its match. *)
Theorem C6_lookup_lists_matches a calls req rest res body v items ms :
  snd (handle upstream cfg (InvokeLookup a) calls) = calls ++ req :: rest ->
  upstream calls req = Responded res ->
  res_ok res = true ->
  res_text res = Some body ->
  carries body v ->
  Get v (lit "results") = Return (of_json (JArr items)) ->
  Forall2 describes items ms ->
  (ms = [] ->
   fst (handle upstream cfg (InvokeLookup a) calls)
   = Return (text_result
               ((lit "Ничего не найдено по запросу: " ++ DQUOTE)
                ++ lk_searchTerm a ++ DQUOTE))
   /\ ~ contains bullet (lit "Ничего не найдено по запросу: " ++ DQUOTE)
   /\ ~ contains bullet DQUOTE)
  /\ (ms <> [] ->
      fst (handle upstream cfg (InvokeLookup a) calls)
      = Return (text_result
                  (lit "🔍 Результаты для " ++ DQUOTE ++ lk_searchTerm a
                   ++ DQUOTE ++ lit ":" ++ LF ++ LF
                   ++ join (LF ++ LF) (map entry_of ms))))
  /\ length (map entry_of ms) = length items
  /\ Forall (fun m =>
               starts_with bullet (entry_of m) = true
               /\ contains (m_title m) (entry_of m)
               /\ contains (m_id m) (entry_of m)
               /\ contains (m_structureId m) (entry_of m)) ms.
Proof.
  intros Hsent Hres Hok Hbody Hv Hresults Hms.
  destruct (sent_inv _ _ _ _ Hsent) as (Hreach & -> & _).
  pose proof (settle_ok _ _ _ Hok Hbody Hv) as Hsettle.
  rewrite <- Hres in Hsettle.
  split; [|split; [|split]].
  - intros ->. inversion Hms; subst. split; [|split].
    + enter_handler Hreach Hsettle. steps. rewrite Hresults. steps.
      cbn [Get_length truthy length Nat.eqb negb].
      now rewrite <- !app_assoc.
    + apply not_includes. vm_compute. reflexivity.
    + apply not_includes. vm_compute. reflexivity.
  - intros Hsome.
    enter_handler Hreach Hsettle. steps. rewrite Hresults. steps.
    destruct Hms as [|j m items ms Hjm Hrest]; [now elim Hsome|].
    cbn [Get_length truthy length Nat.eqb negb Array_map].
    rewrite (entries_of_matches (j :: items) (m :: ms))
      by (constructor; assumption).
    reflexivity.
  - rewrite length_map. symmetry. eapply Forall2_length; eassumption.
  - apply Forall_forall. intros m _. unfold entry_of.
    split; [|split; [|split]].
    + apply starts_with_spec. eexists; reflexivity.
    + find_inside.
    + find_inside.
    + find_inside.
Qed.

(** ** Empty overrides *)

Ltac keep_field := rewrite field_keep by reflexivity.

(** C9: an empty title, description or notes passes the schema of
    save_weblink and is then left out: the run is the very run of an
    invocation without that field, and with a workspace resolved the one
    request sent has a body without the override.  An empty tags array
    passes too and is sent: the body of the one request holds [tags] as the
    empty list. *)
Theorem C9_empty_overrides props a calls :
  save_weblink_schema (JObj props) = Some a ->
  (save_weblink_schema (JObj (props ++ [(lit "title", JStr [])]))
   = Some (with_title a (Some []))
   /\ save_weblink_schema (JObj (props ++ [(lit "description", JStr [])]))
      = Some (with_description a (Some []))
   /\ save_weblink_schema (JObj (props ++ [(lit "notes", JStr [])]))
      = Some (with_notes a (Some []))
   /\ save_weblink_schema (JObj (props ++ [(lit "tags", JArr [])]))
      = Some (with_tags a (Some [])))
  /\ (handle upstream cfg (InvokeSaveWeblink (with_title a (Some []))) calls
      = handle upstream cfg (InvokeSaveWeblink (with_title a None)) calls
      /\ handle upstream cfg
           (InvokeSaveWeblink (with_description a (Some []))) calls
         = handle upstream cfg
             (InvokeSaveWeblink (with_description a None)) calls
      /\ handle upstream cfg (InvokeSaveWeblink (with_notes a (Some []))) calls
         = handle upstream cfg (InvokeSaveWeblink (with_notes a None)) calls)
  /\ (is_empty (targetSpace cfg (wl_spaceId a)) = false ->
      (exists req,
         snd (handle upstream cfg
                (InvokeSaveWeblink (with_title a (Some []))) calls)
         = calls ++ [req]
         /\ req_body req
            = Some (JSON_stringify
                      (JObj ([ (lit "spaceId",
                                JStr (targetSpace cfg (wl_spaceId a)));
                               (lit "url", JStr (wl_url a)) ]
                             ++ spread_string (lit "descriptionOverwrite")
                                  (wl_description a)
                             ++ spread_string (lit "mdText") (wl_notes a)
                             ++ match wl_tags a with
                                | Some tags =>
                                  [(lit "tags", JArr (map JStr tags))]
                                | None => []
                                end))))
      /\ (exists req,
            snd (handle upstream cfg
                   (InvokeSaveWeblink (with_description a (Some []))) calls)
            = calls ++ [req]
            /\ req_body req
               = Some (JSON_stringify
                         (JObj ([ (lit "spaceId",
                                   JStr (targetSpace cfg (wl_spaceId a)));
                                  (lit "url", JStr (wl_url a)) ]
                                ++ spread_string (lit "titleOverwrite")
                                     (wl_title a)
                                ++ spread_string (lit "mdText") (wl_notes a)
                                ++ match wl_tags a with
                                   | Some tags =>
                                     [(lit "tags", JArr (map JStr tags))]
                                   | None => []
                                   end))))
      /\ (exists req,
            snd (handle upstream cfg
                   (InvokeSaveWeblink (with_notes a (Some []))) calls)
            = calls ++ [req]
            /\ req_body req
               = Some (JSON_stringify
                         (JObj ([ (lit "spaceId",
                                   JStr (targetSpace cfg (wl_spaceId a)));
                                  (lit "url", JStr (wl_url a)) ]
                                ++ spread_string (lit "titleOverwrite")
                                     (wl_title a)
                                ++ spread_string (lit "descriptionOverwrite")
                                     (wl_description a)
                                ++ match wl_tags a with
                                   | Some tags =>
                                     [(lit "tags", JArr (map JStr tags))]
                                   | None => []
                                   end))))
      /\ (exists req,
            snd (handle upstream cfg
                   (InvokeSaveWeblink (with_tags a (Some []))) calls)
            = calls ++ [req]
            /\ req_body req
               = Some (JSON_stringify
                         (JObj ([ (lit "spaceId",
                                   JStr (targetSpace cfg (wl_spaceId a)));
                                  (lit "url", JStr (wl_url a)) ]
                                ++ spread_string (lit "titleOverwrite")
                                     (wl_title a)
                                ++ spread_string (lit "descriptionOverwrite")
                                     (wl_description a)
                                ++ spread_string (lit "mdText") (wl_notes a)
                                ++ [(lit "tags", JArr [])]))))).
Proof.
  intros Hvalid. split; [|split].
  - unfold save_weblink_schema in *.
    destruct (z_check zod_url z_string _) as [u|] eqn:Eu; [|discriminate].
    destruct (z_optional (z_max 500 z_string) _) as [ti|] eqn:Eti;
      [|discriminate].
    destruct (z_optional (z_max 1000 z_string) _) as [de|] eqn:Ede;
      [|discriminate].
    destruct (z_optional (z_max 200000 z_string) _) as [no|] eqn:Eno;
      [|discriminate].
    destruct (z_optional (z_max 30 (z_array z_string)) _) as [ta|] eqn:Eta;
      [|discriminate].
    destruct (z_spaceId _) as [sp|] eqn:Esp; [|discriminate].
    inversion Hvalid; subst a; clear Hvalid.
    split; [|split; [|split]].
    + rewrite field_set. repeat keep_field.
      now rewrite Eu, Ede, Eno, Eta, Esp.
    + rewrite field_set. repeat keep_field.
      now rewrite Eu, Eti, Eno, Eta, Esp.
    + rewrite field_set. repeat keep_field.
      now rewrite Eu, Eti, Ede, Eta, Esp.
    + rewrite field_set. repeat keep_field.
      now rewrite Eu, Eti, Ede, Eno, Esp.
  - repeat split.
  - intros Hspace.
    assert (Hsent : forall a',
      wl_spaceId a' = wl_spaceId a ->
      snd (handle upstream cfg (InvokeSaveWeblink a') calls)
      = calls ++ [request_of cfg (InvokeSaveWeblink a')]).
    { intros a' Ha'. rewrite handle_calls.
      unfold reaches_invoke, explicit_spaceId. now rewrite Ha', Hspace. }
    split; [|split; [|split]]; eexists;
      (split; [apply Hsent; reflexivity | reflexivity]).
Qed.

End Facts.

Lemma C1_no_workspace_no_call_witness :
  handle (RT := demo_runtime) (responds 200 "OK" []) demo_config_no_space
    (InvokeLookup demo_lookup_args) []
  = (Return (text_result
       (lit "Error: No spaceId provided and CAPACITIES_SPACE_ID is not set.")),
     [])
  /\ snd (handle (RT := demo_runtime) (responds 200 "OK" [])
            demo_config_no_space InvokeGetSpaces [])
     = [] ++ [request_of (H := demo_runtime) demo_config_no_space
                InvokeGetSpaces].
Proof.
  apply (C1_no_workspace_no_call (RT := demo_runtime) (responds 200 "OK" [])
           demo_config_no_space (InvokeLookup demo_lookup_args) []);
    vm_compute; reflexivity.
Defined.

(** C1, as the claim words it, fails at get_spaces: with no spaceId argument
    and no configured default, the handler still sends its request and
    replies with the space list, not with the error text. *)
Lemma C1_get_spaces_still_calls :
  explicit_spaceId InvokeGetSpaces = None
  /\ DEFAULT_SPACE_ID demo_config_no_space = []
  /\ snd (handle (RT := demo_runtime)
            (responds 200 "OK" (demo_stringify demo_spaces))
            demo_config_no_space InvokeGetSpaces [])
     = [ request_of (H := demo_runtime) demo_config_no_space
           InvokeGetSpaces ]
  /\ fst (handle (RT := demo_runtime)
            (responds 200 "OK" (demo_stringify demo_spaces))
            demo_config_no_space InvokeGetSpaces [])
     = Return (text_result
                 (lit "📚 Твои Capacities spaces:" ++ LF ++ LF
                  ++ lit "• **Home** — `s-1`"))
  /\ handle (RT := demo_runtime)
       (responds 200 "OK" (demo_stringify demo_spaces))
       demo_config_no_space InvokeGetSpaces []
     <> (Return (text_result
           (lit "Error: No spaceId provided and CAPACITIES_SPACE_ID is not set.")),
         []).
Proof.
  split; [reflexivity|]. split; [reflexivity|].
  split; [vm_compute; reflexivity|]. split; [vm_compute; reflexivity|].
  vm_compute. discriminate.
Qed.

Lemma C8_requests_are_authenticated_json_witness :
  req_headers (request_of (H := demo_runtime) demo_config
                 (InvokeLookup demo_lookup_args))
  = [ (lit "Authorization", lit "Bearer " ++ API_TOKEN demo_config);
      (lit "Content-Type", lit "application/json");
      (lit "Accept", lit "application/json") ]
  /\ (req_body (request_of (H := demo_runtime) demo_config
                  (InvokeLookup demo_lookup_args)) = None
      \/ exists props,
           req_body (request_of (H := demo_runtime) demo_config
                       (InvokeLookup demo_lookup_args))
           = Some (JSON_stringify (Runtime := demo_runtime) (JObj props))).
Proof.
  apply (C8_requests_are_authenticated_json (RT := demo_runtime)
           (responds 500 "Internal Server Error" (lit "server exploded"))
           demo_config (InvokeLookup demo_lookup_args) []
           [request_of (H := demo_runtime) demo_config
              (InvokeLookup demo_lookup_args)]).
  - vm_compute; reflexivity.
  - left; reflexivity.
Defined.

Lemma C2_blank_body_breaks_listing_witness :
  handle (RT := demo_runtime) (responds 200 "OK" []) demo_config_no_space
    InvokeGetSpaces []
  = (Throw TypeError,
     [] ++ [request_of (H := demo_runtime) demo_config_no_space
              InvokeGetSpaces]).
Proof.
  apply (C2_blank_body_breaks_listing (RT := demo_runtime)
           (responds 200 "OK" []) demo_config_no_space InvokeGetSpaces []
           {| res_status := 200; res_statusText := lit "OK";
              res_text := Some [] |} []);
    try (left; reflexivity); vm_compute; reflexivity.
Defined.

(** ** The environment *)

Lemma start_with_token {RT : Runtime} {HO : Host} env :
  is_empty (env_or (CAPACITIES_TOKEN env) []) = false ->
  registered (snd (start env))
  = [ tool_name SaveToDailyNote; tool_name SaveWeblink;
      tool_name GetSpaces; tool_name Lookup ].
Proof.
  intros H.
  unfold start, main, config_of, boot_then, runHttp, runStdio, open_channel,
    fatal, boot_then.
  cbn [API_TOKEN]. rewrite H.
  cbv beta iota delta [skip registerTool stderr_write process_exit fst snd
    stderr registered channel fresh_process app].
  destruct (str_eqb _ _); destruct (comes_up _); reflexivity.
Qed.

(** C10: an empty value in the environment counts as none.  With the token
    unset or empty, start-up writes its diagnostic and exits with status 1,
    no tool registered; with the default workspace id set to the empty
    string, a tool that acts inside a workspace and gets no spaceId answers
    with the missing-workspace text and sends nothing. *)
Theorem C10_empty_environment_is_absent {RT : Runtime} {HO : Host}
    (upstream : list Request -> Request -> FetchResult) env :
  (CAPACITIES_TOKEN env = None \/ CAPACITIES_TOKEN env = Some [] ->
   start env
   = (inr 1,
      {| stderr := [ lit "ERROR: CAPACITIES_TOKEN env var is required"
                     ++ LF ];
         registered := [];
         channel := None |}))
  /\ (CAPACITIES_SPACE_ID env = Some [] ->
      forall i calls,
        needs_space i = true ->
        explicit_spaceId i = None ->
        handle upstream (config_of env) i calls
        = (Return (text_result
             (lit "Error: No spaceId provided and CAPACITIES_SPACE_ID is not set.")),
           calls)).
Proof.
  split.
  - intros Htoken. unfold start, main, config_of, boot_then.
    destruct Htoken as [-> | ->]; reflexivity.
  - intros Hspace i calls Hneeds Hnone.
    apply handle_no_space.
    destruct i; try discriminate; simpl in *;
      unfold targetSpace, config_of; now rewrite Hnone, Hspace.
Qed.

(** ** The theorems at work on the doubles *)

Lemma C3_upstream_error_fails_witness :
  exists message,
    fst (handle (RT := demo_runtime)
           (responds 500 "Internal Server Error" (lit "server exploded"))
           demo_config (InvokeLookup demo_lookup_args) [])
    = Throw (Error message)
    /\ contains (lit "500") message
    /\ contains (lit "server exploded") message.
Proof.
  destruct (C3_upstream_error_fails (RT := demo_runtime)
              (responds 500 "Internal Server Error" (lit "server exploded"))
              demo_config (InvokeLookup demo_lookup_args) []
              (request_of (H := demo_runtime) demo_config
                 (InvokeLookup demo_lookup_args))
              []
              {| res_status := 500;
                 res_statusText := lit "Internal Server Error";
                 res_text := Some (lit "server exploded") |})
    as (_ & message & Hthrow & _ & _ & Hcase).
  - vm_compute; reflexivity.
  - reflexivity.
  - right; vm_compute; reflexivity.
  - exists message. split; [exact Hthrow|].
    apply Hcase; reflexivity.
Defined.

Lemma C4_daily_note_preview_witness :
  fst (handle (RT := demo_runtime) (responds 200 "OK" []) demo_config
         (InvokeSaveToDailyNote (demo_note_args 201)) [])
  = Return (text_result
              (lit "✅ Сохранено в Daily Note:" ++ LF ++ LF
               ++ repeat 120 200 ++ lit "…")).
Proof.
  destruct (C4_daily_note_preview (RT := demo_runtime)
              (responds 200 "OK" []) demo_config (demo_note_args 201) []
              (request_of (H := demo_runtime) demo_config
                 (InvokeSaveToDailyNote (demo_note_args 201)))
              []
              {| res_status := 200; res_statusText := lit "OK";
                 res_text := Some [] |}
              [] (of_json (JObj [])))
    as (preview & Hreply & _ & Hlong).
  - vm_compute; reflexivity.
  - reflexivity.
  - vm_compute; reflexivity.
  - reflexivity.
  - apply carries_blank. vm_compute; reflexivity.
  - destruct Hlong as [Hpreview _].
    + unfold demo_note_args; cbn [dn_text]. rewrite repeat_length. lia.
    + rewrite Hpreview in Hreply. exact Hreply.
Defined.

Lemma C5_weblink_url_only_witness :
  req_body (request_of (H := demo_runtime) demo_config
              (InvokeSaveWeblink demo_weblink_args))
  = Some (JSON_stringify (Runtime := demo_runtime)
            (JObj [ (lit "spaceId",
                     JStr (targetSpace demo_config
                             (wl_spaceId demo_weblink_args)));
                    (lit "url", JStr (wl_url demo_weblink_args)) ]))
  /\ fst (handle (RT := demo_runtime) (responds 200 "OK" []) demo_config
            (InvokeSaveWeblink demo_weblink_args) [])
     = Return (text_result
                 (lit "✅ Ссылка сохранена в Capacities:" ++ LF ++ LF
                  ++ lit "**" ++ wl_url demo_weblink_args ++ lit "**" ++ LF
                  ++ wl_url demo_weblink_args ++ LF ++ LF
                  ++ lit "ID: " ++ lit "n/a")).
Proof.
  destruct (C5_weblink_url_only (RT := demo_runtime)
              (responds 200 "OK" []) demo_config demo_weblink_args []
              (request_of (H := demo_runtime) demo_config
                 (InvokeSaveWeblink demo_weblink_args))
              [] eq_refl eq_refl eq_refl eq_refl)
    as [Hsent Hreply].
  - vm_compute; reflexivity.
  - split; [exact Hsent|].
    apply (Hreply {| res_status := 200; res_statusText := lit "OK";
                     res_text := Some [] |}
                  [] (of_json (JObj [])) undefined undefined);
      try (vm_compute; reflexivity).
    apply carries_blank. vm_compute; reflexivity.
Defined.

Lemma C6_lookup_lists_matches_witness :
  fst (handle (RT := demo_runtime)
         (responds 200 "OK" (demo_stringify demo_two_results))
         demo_config (InvokeLookup demo_lookup_args) [])
  = Return (text_result
              (lit "🔍 Результаты для " ++ DQUOTE ++ lit "alpha" ++ DQUOTE
               ++ lit ":" ++ LF ++ LF
               ++ join (LF ++ LF)
                    (map entry_of
                       [ {| m_id := lit "11"; m_structureId := lit "RootPage";
                            m_title := lit "Alpha" |};
                         {| m_id := lit "22"; m_structureId := lit "RootTag";
                            m_title := lit "Beta" |} ]))).
Proof.
  destruct (C6_lookup_lists_matches (RT := demo_runtime)
              (responds 200 "OK" (demo_stringify demo_two_results))
              demo_config demo_lookup_args []
              (request_of (H := demo_runtime) demo_config
                 (InvokeLookup demo_lookup_args))
              []
              {| res_status := 200; res_statusText := lit "OK";
                 res_text := Some (demo_stringify demo_two_results) |}
              (demo_stringify demo_two_results)
              (of_json demo_two_results)
              [ demo_match "11" "RootPage" "Alpha";
                demo_match "22" "RootTag" "Beta" ]
              [ {| m_id := lit "11"; m_structureId := lit "RootPage";
                   m_title := lit "Alpha" |};
                {| m_id := lit "22"; m_structureId := lit "RootTag";
                   m_title := lit "Beta" |} ])
    as (_ & Hsome & _).
  - vm_compute; reflexivity.
  - reflexivity.
  - vm_compute; reflexivity.
  - reflexivity.
  - apply carries_json; vm_compute; [discriminate | reflexivity].
  - vm_compute; reflexivity.
  - repeat constructor.
  - apply Hsome. discriminate.
Defined.

(** With no match the reply is the nothing-found line. *)
Example lookup_nothing_found :
  fst (handle (RT := demo_runtime)
         (responds 200 "OK" (demo_stringify demo_no_results))
         demo_config (InvokeLookup demo_lookup_args) [])
  = Return (text_result
              (lit "Ничего не найдено по запросу: " ++ DQUOTE ++ lit "alpha"
               ++ DQUOTE)).
Proof. vm_compute. reflexivity. Qed.

Lemma C9_empty_overrides_witness :
  save_weblink_schema (H := demo_runtime)
    (JObj (demo_weblink_raw ++ [(lit "tags", JArr [])]))
  = Some (with_tags demo_weblink_args (Some []))
  /\ handle (RT := demo_runtime) (responds 200 "OK" []) demo_config
       (InvokeSaveWeblink (with_title demo_weblink_args (Some []))) []
     = handle (RT := demo_runtime) (responds 200 "OK" []) demo_config
         (InvokeSaveWeblink (with_title demo_weblink_args None)) []
  /\ exists req,
       snd (handle (RT := demo_runtime) (responds 200 "OK" []) demo_config
              (InvokeSaveWeblink (with_tags demo_weblink_args (Some []))) [])
       = [] ++ [req]
       /\ req_body req
          = Some (JSON_stringify (Runtime := demo_runtime)
                    (JObj ([ (lit "spaceId",
                              JStr (targetSpace demo_config
                                      (wl_spaceId demo_weblink_args)));
                             (lit "url", JStr (wl_url demo_weblink_args)) ]
                           ++ spread_string (lit "titleOverwrite")
                                (wl_title demo_weblink_args)
                           ++ spread_string (lit "descriptionOverwrite")
                                (wl_description demo_weblink_args)
                           ++ spread_string (lit "mdText")
                                (wl_notes demo_weblink_args)
                           ++ [(lit "tags", JArr [])]))).
Proof.
  destruct (C9_empty_overrides (RT := demo_runtime) (responds 200 "OK" [])
              demo_config demo_weblink_raw demo_weblink_args [])
    as ((_ & _ & _ & Htags) & (Hsame & _) & Hsent).
  - vm_compute; reflexivity.
  - split; [exact Htags|]. split; [exact Hsame|].
    destruct Hsent as (_ & _ & _ & Hreq).
    + vm_compute; reflexivity.
    + exact Hreq.
Defined.

Lemma C10_empty_environment_is_absent_witness :
  start (RT := demo_runtime) (HO := demo_host) (demo_env (Some []) None)
  = (inr 1,
     {| stderr := [ lit "ERROR: CAPACITIES_TOKEN env var is required"
                    ++ LF ];
        registered := [];
        channel := None |})
  /\ handle (RT := demo_runtime) (responds 200 "OK" [])
       (config_of (demo_env (Some (lit "secret")) (Some [])))
       (InvokeLookup demo_lookup_args) []
     = (Return (text_result
          (lit "Error: No spaceId provided and CAPACITIES_SPACE_ID is not set.")),
        []).
Proof.
  split.
  - apply (proj1 (C10_empty_environment_is_absent (RT := demo_runtime)
                    (HO := demo_host)
                    (responds 200 "OK" []) (demo_env (Some []) None))).
    right; reflexivity.
  - apply (proj2 (C10_empty_environment_is_absent (RT := demo_runtime)
                    (HO := demo_host)
                    (responds 200 "OK" [])
                    (demo_env (Some (lit "secret")) (Some []))));
      reflexivity.
Defined.

(** * Further properties of the adapter *)

(** Run the steps of the monads. *)
Ltac run_steps :=
  cbv beta iota delta [fst snd bind ret lift throw and_then].

(** Step into a handler that reaches the invoke step ([Hreach]) and whose
    answer settles as [Hsettle] says. *)
Ltac into_handler Hreach Hsettle :=
  unfold handle, capacities_save_to_daily_note, capacities_save_weblink,
    capacities_get_spaces, capacities_lookup;
  cbv zeta;
  unfold reaches_invoke, explicit_spaceId in Hreach;
  try (destruct (is_empty _); [discriminate Hreach|]);
  rewrite request_then by auto 20 with quiet;
  unfold request_of in Hsettle;
  rewrite Hsettle.

(** ** Blank bodies, exactly *)

Lemma trim_start_nil (s : jsstring) :
  trim_start s = [] <-> forallb is_js_space s = true.
Proof.
  induction s as [|c s IH]; simpl; [tauto|].
  destruct (is_js_space c); simpl; [exact IH|].
  split; discriminate.
Qed.

Lemma trim_start_spaces (s : jsstring) :
  forallb is_js_space (trim_start s) = true -> trim_start s = [].
Proof.
  induction s as [|c s IH]; simpl; [reflexivity|].
  destruct (is_js_space c) eqn:E; [exact IH|].
  simpl. rewrite E. discriminate.
Qed.

Lemma forallb_rev {A} (f : A -> bool) (l : list A) :
  forallb f (rev l) = forallb f l.
Proof.
  induction l as [|x l IH]; simpl; [reflexivity|].
  rewrite forallb_app, IH. simpl. rewrite andb_true_r. apply andb_comm.
Qed.

Lemma trim_nil (s : jsstring) :
  trim s = [] <-> forallb is_js_space s = true.
Proof.
  unfold trim. split.
  - intros H. apply (f_equal (@rev code_unit)) in H.
    rewrite rev_involutive in H. simpl in H.
    apply trim_start_nil in H. rewrite forallb_rev in H.
    apply trim_start_nil. now apply trim_start_spaces.
  - intros H. apply trim_start_nil in H. rewrite H. reflexivity.
Qed.

Section More.

Context {RT : Runtime}.
Variable upstream : list Request -> Request -> FetchResult.
Variable cfg : Config.

(** X1: on a 2xx answer the helper decides by the body alone: made only of
    white space (or empty), it yields the empty object and the parser is not
    asked; holding anything else, it yields what [JSON.parse] makes of the
    body, or throws its SyntaxError. *)
Theorem blank_body_is_whitespace_only path method payload params calls res body :
  upstream calls (outbound cfg path method payload params) = Responded res ->
  res_ok res = true ->
  res_text res = Some body ->
  fst (capacitiesRequest upstream cfg path method payload params calls)
  = if forallb is_js_space body then Return (of_json (JObj []))
    else match JSON_parse body with
         | Some j => Return (of_json j)
         | None => Throw SyntaxError
         end.
Proof.
  intros Hres Hok Hbody.
  rewrite capacitiesRequest_unfold, Hres. unfold settle. rewrite Hok, Hbody.
  cbn [fst].
  destruct (forallb is_js_space body) eqn:E.
  - apply trim_nil, blank_iff in E. now rewrite E.
  - assert (N : trim body <> []).
    { intros T. apply trim_nil in T. congruence. }
    apply not_blank_iff in N. now rewrite N.
Qed.

(** ** Failures of the exchange *)

(** X2: when the answer has a status outside 200..299 and its body cannot be
    read, the invocation throws the API error built from the status and the
    status text, after its one request. *)
Theorem unreadable_error_body_reports_status_text i calls res :
  reaches_invoke cfg i = true ->
  upstream calls (request_of cfg i) = Responded res ->
  res_ok res = false ->
  res_text res = None ->
  handle upstream cfg i calls
  = (Throw (Error (lit "Capacities API error " ++ decimal (res_status res)
                   ++ lit ": " ++ res_statusText res)),
     calls ++ [request_of cfg i]).
Proof.
  intros Hreach Hres Hok Hbody.
  rewrite handle_run, Hreach. f_equal.
  apply handle_throws; [assumption|].
  rewrite Hres, (settle_error res Hok), Hbody. reflexivity.
Qed.

(** X3: a 2xx answer whose body is neither blank nor JSON makes every tool
    throw a SyntaxError after its one request, save_to_daily_note included,
    although it never looks at the parsed value. *)
Theorem unparseable_body_fails_every_tool i calls res body :
  reaches_invoke cfg i = true ->
  upstream calls (request_of cfg i) = Responded res ->
  res_ok res = true ->
  res_text res = Some body ->
  forallb is_js_space body = false ->
  JSON_parse body = None ->
  handle upstream cfg i calls
  = (Throw SyntaxError, calls ++ [request_of cfg i]).
Proof.
  intros Hreach Hres Hok Hbody Hfull Hparse.
  rewrite handle_run, Hreach. f_equal.
  apply handle_throws; [assumption|].
  rewrite Hres. unfold settle. rewrite Hok, Hbody.
  assert (N : trim body <> []).
  { intros T. apply trim_nil in T. congruence. }
  apply not_blank_iff in N. now rewrite N, Hparse.
Qed.

(** X4: when [fetch] rejects, or the body of a 2xx answer cannot be read,
    the invocation throws that failure; the one request stays the only one. *)
Theorem transport_failure_is_not_retried i calls :
  reaches_invoke cfg i = true ->
  upstream calls (request_of cfg i) = Rejected
  \/ (exists res,
        upstream calls (request_of cfg i) = Responded res
        /\ res_ok res = true /\ res_text res = None) ->
  handle upstream cfg i calls
  = (Throw FetchError, calls ++ [request_of cfg i]).
Proof.
  intros Hreach Hfail.
  rewrite handle_run, Hreach. f_equal.
  apply handle_throws; [assumption|].
  destruct Hfail as [-> | (res & -> & Hok & Hbody)]; [reflexivity|].
  unfold settle. now rewrite Hok, Hbody.
Qed.

(** ** Listings *)

Lemma mapM_length {A B} (f : A -> completion B) (l : list A) (ys : list B) :
  mapM f l = Return ys -> length ys = length l.
Proof.
  revert ys; induction l as [|x l IH]; simpl; intros ys H.
  - now inversion H.
  - destruct (f x); [|discriminate].
    destruct (mapM f l) as [zs|]; [|discriminate].
    inversion H; subst. simpl. now rewrite (IH zs).
Qed.

Lemma mapM_throws {A B} (f : A -> completion B) (l : list A) (x : A) :
  In x l -> (exists e, f x = Throw e) -> exists e, mapM f l = Throw e.
Proof.
  intros Hin [e He]. induction l as [|y l IH]; [contradiction|].
  simpl. destruct Hin as [->|Hin].
  - rewrite He. now exists e.
  - destruct (f y) as [b|e']; [|now exists e'].
    destruct (IH Hin) as [e'' ->]. now exists e''.
Qed.

Lemma space_line_describes j s :
  describes_space j s -> space_line (of_json j) = Return (line_of s).
Proof.
  intros (Ht & Hi). unfold space_line. rewrite Ht, Hi.
  cbn [and_then ToString json_ToString].
  unfold line_of, bullet.
  change (lit "• **") with (lit "•" ++ lit " **").
  now rewrite <- !app_assoc.
Qed.

Lemma lines_of_spaces items sps :
  Forall2 describes_space items sps ->
  mapM space_line (map of_json items) = Return (map line_of sps).
Proof.
  induction 1 as [|j s items sps Hjs _ IH]; simpl; [reflexivity|].
  now rewrite (space_line_describes _ _ Hjs), IH.
Qed.

(** X5: on a 2xx answer whose [spaces] is an array of spaces, get_spaces
    replies with the heading and one bulleted line per space, in the
    upstream's order, each holding the title and the id of its space; with
    no space at all the reply is the bare heading. *)
Theorem get_spaces_lists_spaces calls res body v items sps :
  upstream calls (request_of cfg InvokeGetSpaces) = Responded res ->
  res_ok res = true ->
  res_text res = Some body ->
  carries body v ->
  Get v (lit "spaces") = Return (of_json (JArr items)) ->
  Forall2 describes_space items sps ->
  handle upstream cfg InvokeGetSpaces calls
  = (Return (text_result
               (lit "📚 Твои Capacities spaces:" ++ LF ++ LF
                ++ join LF (map line_of sps))),
     calls ++ [request_of cfg InvokeGetSpaces])
  /\ length (map line_of sps) = length items
  /\ (items = [] -> join LF (map line_of sps) = [])
  /\ Forall (fun s =>
               starts_with bullet (line_of s) = true
               /\ contains (s_title s) (line_of s)
               /\ contains (s_id s) (line_of s)) sps.
Proof.
  intros Hres Hok Hbody Hv Hspaces Hsps.
  pose proof (settle_ok _ _ _ Hok Hbody Hv) as Hsettle.
  rewrite <- Hres in Hsettle.
  assert (Hreach : reaches_invoke cfg InvokeGetSpaces = true)
    by reflexivity.
  split; [|split; [|split]].
  - rewrite handle_run, Hreach. f_equal.
    into_handler Hreach Hsettle. run_steps. rewrite Hspaces. run_steps.
    cbn [Array_map]. now rewrite (lines_of_spaces items sps Hsps).
  - rewrite length_map. symmetry. eapply Forall2_length; eassumption.
  - intros ->. inversion Hsps; subst. reflexivity.
  - apply Forall_forall. intros s _. unfold line_of.
    split; [|split].
    + apply starts_with_spec. eexists; reflexivity.
    + find_inside.
    + find_inside.
Qed.

(** X6: whatever the upstream put under [results], a lookup that replies
    either gives the nothing-found line or lists exactly as many entries as
    the non-empty array it received has items. *)
Theorem lookup_reply_counts_items a calls res body v reply :
  reaches_invoke cfg (InvokeLookup a) = true ->
  upstream calls (request_of cfg (InvokeLookup a)) = Responded res ->
  res_ok res = true ->
  res_text res = Some body ->
  carries body v ->
  fst (handle upstream cfg (InvokeLookup a) calls) = Return reply ->
  reply
  = text_result (lit "Ничего не найдено по запросу: " ++ DQUOTE
                 ++ lk_searchTerm a ++ DQUOTE)
  \/ exists items entries,
       Get v (lit "results") = Return (of_json (JArr items))
       /\ items <> []
       /\ mapM result_entry (map of_json items) = Return entries
       /\ length entries = length items
       /\ reply
          = text_result
              (lit "🔍 Результаты для " ++ DQUOTE ++ lk_searchTerm a
               ++ DQUOTE ++ lit ":" ++ LF ++ LF
               ++ join (LF ++ LF) entries).
Proof.
  intros Hreach Hres Hok Hbody Hv.
  pose proof (settle_ok _ _ _ Hok Hbody Hv) as Hsettle.
  rewrite <- Hres in Hsettle.
  into_handler Hreach Hsettle. run_steps.
  destruct (Get v (lit "results")) as [r|]; [|discriminate].
  destruct (Get_length r) as [len|] eqn:Elen; [|discriminate].
  destruct (negb (truthy len)) eqn:Etruthy.
  - intros E; inversion E. now left.
  - destruct (Array_map r result_entry) as [entries|] eqn:Emap;
      [|discriminate].
    intros E; inversion E; subst reply. right.
    destruct r as [|[]|]; try discriminate Emap.
    cbn [Array_map] in Emap. cbn [Get_length] in Elen.
    inversion Elen; subst len.
    exists items, entries. split; [reflexivity|].
    split; [|split; [exact Emap|split; [|reflexivity]]].
    + intros ->. discriminate Etruthy.
    + rewrite (mapM_length _ _ _ Emap). apply length_map.
Qed.

(** X7: a [null] among the items of the array a listing tool iterates over
    makes the whole invocation throw: no partial list is replied. *)
Theorem null_item_fails_the_listing i key calls res body v items :
  listed_property i = Some key ->
  reaches_invoke cfg i = true ->
  upstream calls (request_of cfg i) = Responded res ->
  res_ok res = true ->
  res_text res = Some body ->
  carries body v ->
  Get v key = Return (of_json (JArr items)) ->
  In JNull items ->
  exists e,
    handle upstream cfg i calls = (Throw e, calls ++ [request_of cfg i]).
Proof.
  intros Hkey Hreach Hres Hok Hbody Hv Hget Hin.
  pose proof (settle_ok _ _ _ Hok Hbody Hv) as Hsettle.
  rewrite <- Hres in Hsettle.
  rewrite handle_run, Hreach.
  assert (Hin' : In (of_json JNull) (map of_json items))
    by (apply in_map; exact Hin).
  destruct i as [a|a| |a]; try discriminate Hkey;
    inversion Hkey; subst key.
  - destruct (mapM_throws space_line _ _ Hin') as [e He].
    { exists TypeError; reflexivity. }
    exists e. f_equal.
    into_handler Hreach Hsettle. run_steps. rewrite Hget. run_steps.
    cbn [Array_map]. now rewrite He.
  - destruct (mapM_throws result_entry _ _ Hin') as [e He].
    { exists TypeError; reflexivity. }
    exists e. f_equal.
    into_handler Hreach Hsettle. run_steps. rewrite Hget. run_steps.
    destruct items as [|j items]; [contradiction|].
    cbn [Get_length truthy length Nat.eqb negb Array_map].
    now rewrite He.
Qed.

(** X8: a 2xx answer that is the JSON value [null] makes the three tools
    that read the answer throw a TypeError after their request. *)
Theorem null_answer_breaks_reading_tools i calls res body :
  (forall a, i <> InvokeSaveToDailyNote a) ->
  reaches_invoke cfg i = true ->
  upstream calls (request_of cfg i) = Responded res ->
  res_ok res = true ->
  res_text res = Some body ->
  carries body (of_json JNull) ->
  handle upstream cfg i calls
  = (Throw TypeError, calls ++ [request_of cfg i]).
Proof.
  intros Hread Hreach Hres Hok Hbody Hv.
  pose proof (settle_ok _ _ _ Hok Hbody Hv) as Hsettle.
  rewrite <- Hres in Hsettle.
  rewrite handle_run, Hreach. f_equal.
  destruct i as [a|a| |a]; [now elim (Hread a)| | |];
    into_handler Hreach Hsettle; reflexivity.
Qed.

(** X9: when the answer carries a title and an id, both strings, the reply
    of save_weblink shows them, with the url on its own line between. *)
Theorem weblink_reply_shows_saved_link a calls res body v title id :
  reaches_invoke cfg (InvokeSaveWeblink a) = true ->
  upstream calls (request_of cfg (InvokeSaveWeblink a)) = Responded res ->
  res_ok res = true ->
  res_text res = Some body ->
  carries body v ->
  Get v (lit "title") = Return (of_json (JStr title)) ->
  Get v (lit "id") = Return (of_json (JStr id)) ->
  handle upstream cfg (InvokeSaveWeblink a) calls
  = (Return (text_result
               (lit "✅ Ссылка сохранена в Capacities:" ++ LF ++ LF
                ++ lit "**" ++ title ++ lit "**" ++ LF
                ++ wl_url a ++ LF ++ LF ++ lit "ID: " ++ id)),
     calls ++ [request_of cfg (InvokeSaveWeblink a)]).
Proof.
  intros Hreach Hres Hok Hbody Hv Htitle Hid.
  pose proof (settle_ok _ _ _ Hok Hbody Hv) as Hsettle.
  rewrite <- Hres in Hsettle.
  rewrite handle_run, Hreach. f_equal.
  into_handler Hreach Hsettle. run_steps. rewrite Htitle, Hid.
  reflexivity.
Qed.

(** ** What goes out *)

(** X10: the request of save_to_daily_note carries the resolved workspace
    as [spaceId], the whole text as [mdText] whatever its length, and
    [noTimeStamp: true] exactly when [noTimestamp] is set; nothing else. *)
Theorem daily_note_sends_whole_text a calls req rest :
  snd (handle upstream cfg (InvokeSaveToDailyNote a) calls)
  = calls ++ req :: rest ->
  exists props,
    req_body req = Some (JSON_stringify (JObj props))
    /\ own_property props (lit "spaceId")
       = Some (JStr (targetSpace cfg (dn_spaceId a)))
    /\ own_property props (lit "mdText") = Some (JStr (dn_text a))
    /\ own_property props (lit "noTimeStamp")
       = (if dn_noTimestamp a then Some (JBool true) else None)
    /\ length props = (if dn_noTimestamp a then 3 else 2)%nat.
Proof.
  intros Hsent.
  destruct (sent_inv _ _ _ _ _ _ Hsent) as (_ & -> & _).
  eexists. split; [reflexivity|].
  destruct (dn_noTimestamp a); repeat split.
Qed.

(** X11: the request of save_weblink carries the workspace and the url, and
    each override that is present and not empty under its upstream name:
    title as [titleOverwrite], description as [descriptionOverwrite], notes
    as [mdText]; tags go out as given whenever the argument is there.  The
    argument names themselves are not sent. *)
Theorem weblink_overrides_are_renamed a calls req rest :
  snd (handle upstream cfg (InvokeSaveWeblink a) calls)
  = calls ++ req :: rest ->
  exists props,
    req_body req = Some (JSON_stringify (JObj props))
    /\ own_property props (lit "spaceId")
       = Some (JStr (targetSpace cfg (wl_spaceId a)))
    /\ own_property props (lit "url") = Some (JStr (wl_url a))
    /\ own_property props (lit "titleOverwrite")
       = option_map JStr (nonempty (wl_title a))
    /\ own_property props (lit "descriptionOverwrite")
       = option_map JStr (nonempty (wl_description a))
    /\ own_property props (lit "mdText")
       = option_map JStr (nonempty (wl_notes a))
    /\ own_property props (lit "tags")
       = option_map (fun tags => JArr (map JStr tags)) (wl_tags a)
    /\ own_property props (lit "title") = None
    /\ own_property props (lit "description") = None
    /\ own_property props (lit "notes") = None.
Proof.
  intros Hsent.
  destruct (sent_inv _ _ _ _ _ _ Hsent) as (_ & -> & _).
  eexists. split; [reflexivity|].
  destruct a as [url ti de no ta sp]; cbn [wl_url wl_title wl_description
    wl_notes wl_tags wl_spaceId].
  destruct ti as [[|c1 ti]|], de as [[|c2 de]|], no as [[|c3 no]|],
    ta as [ta|]; repeat split.
Qed.

(** X12: with an explicit spaceId the configured default plays no part: the
    run is the same under any default. *)
Theorem explicit_space_overrides_default i s d calls :
  explicit_spaceId i = Some s ->
  handle upstream (with_default cfg d) i calls = handle upstream cfg i calls.
Proof.
  intros Hs.
  destruct i as [a|a| |a]; simpl in Hs; try discriminate;
    unfold handle, capacities_save_to_daily_note, capacities_save_weblink,
      capacities_lookup, targetSpace;
    rewrite Hs; reflexivity.
Qed.

(** X13: each tool talks to its own endpoint: save_to_daily_note, save_weblink
    and lookup POST a body to their paths under the API origin, get_spaces
    GETs /spaces with no body; no request has a query string of the
    helper's making. *)
Theorem each_tool_has_its_endpoint i calls req rest :
  snd (handle upstream cfg i calls) = calls ++ req :: rest ->
  (req_method req, req_url req)
  = match i with
    | InvokeSaveToDailyNote _ =>
      (POST, lit "https://api.capacities.io/save-to-daily-note")
    | InvokeSaveWeblink _ =>
      (POST, lit "https://api.capacities.io/save-weblink")
    | InvokeGetSpaces => (GET, lit "https://api.capacities.io/spaces")
    | InvokeLookup _ => (POST, lit "https://api.capacities.io/lookup")
    end
  /\ (req_body req = None <-> i = InvokeGetSpaces).
Proof.
  intros Hsent.
  destruct (sent_inv _ _ _ _ _ _ Hsent) as (_ & -> & _).
  destruct i as [a|a| |a]; (split; [reflexivity|]);
    split; try discriminate; reflexivity.
Qed.

(** ** What the schemas let through *)

Lemma z_string_some v s : z_string v = Some s <-> v = of_json (JStr s).
Proof.
  unfold z_string. destruct v as [|[]|]; split; intros H;
    try discriminate; inversion H; reflexivity.
Qed.

Lemma z_boolean_some v b : z_boolean v = Some b <-> v = of_json (JBool b).
Proof.
  unfold z_boolean. destruct v as [|[]|]; split; intros H;
    try discriminate; inversion H; reflexivity.
Qed.

Lemma z_check_some {A} (p : A -> bool) (sch : Schema A) v a :
  z_check p sch v = Some a <-> sch v = Some a /\ p a = true.
Proof.
  unfold z_check. destruct (sch v) as [x|]; [|split; [|intros []]; discriminate].
  destruct (p x) eqn:E; split.
  - intros H; inversion H; subst; auto.
  - intros [H _]; exact H.
  - discriminate.
  - intros [H P]. inversion H; subst. congruence.
Qed.

Lemma z_optional_some {A} (sch : Schema A) v o :
  z_optional sch v = Some o
  <-> (v = undefined /\ o = None)
      \/ (v <> undefined /\ exists a, sch v = Some a /\ o = Some a).
Proof.
  unfold z_optional. destruct v as [|j|n].
  - split.
    + intros H; inversion H; left; auto.
    + intros [[_ ->]|[N _]]; [reflexivity | now elim N].
  - destruct (sch (of_json j)) as [a|]; simpl; split.
    + intros H; inversion H. right. split; [discriminate|]. now exists a.
    + intros [[E _]|[_ (a' & E & ->)]]; [discriminate | now inversion E].
    + discriminate.
    + intros [[E _]|[_ (a' & E & _)]]; discriminate.
  - destruct (sch (of_length n)) as [a|]; simpl; split.
    + intros H; inversion H. right. split; [discriminate|]. now exists a.
    + intros [[E _]|[_ (a' & E & ->)]]; [discriminate | now inversion E].
    + discriminate.
    + intros [[E _]|[_ (a' & E & _)]]; discriminate.
Qed.

Lemma z_spaceId_some v o : z_spaceId v = Some o <-> optional_uuid v o.
Proof.
  unfold z_spaceId, optional_uuid. rewrite z_optional_some. split.
  - intros [H|[_ (s & Hs & ->)]]; [left; exact H|].
    apply z_check_some in Hs. destruct Hs as [Hs Hu].
    apply z_string_some in Hs. right. now exists s.
  - intros [H|(s & -> & Hu & ->)]; [left; exact H|].
    right. split; [discriminate|]. exists s. split; [|reflexivity].
    apply z_check_some. split; [now apply z_string_some | exact Hu].
Qed.

Lemma z_bounded_text_some (bound : N) v o :
  z_optional (z_max bound z_string) v = Some o <-> optional_text bound v o.
Proof.
  unfold optional_text, z_max. rewrite z_optional_some. split.
  - intros [H|[_ (s & Hs & ->)]]; [left; exact H|].
    apply z_check_some in Hs. destruct Hs as [Hs Hb].
    apply z_string_some in Hs. apply N.leb_le in Hb. right. now exists s.
  - intros [H|(s & -> & Hb & ->)]; [left; exact H|].
    right. split; [discriminate|]. exists s. split; [|reflexivity].
    apply z_check_some. split; [now apply z_string_some|].
    now apply N.leb_le.
Qed.

Lemma all_of_strings items l :
  all_of z_string items = Some l <-> items = map JStr l.
Proof.
  revert l; induction items as [|j items IH]; intros l; cbn [all_of].
  - split; intros H.
    + now inversion H.
    + destruct l; [reflexivity | discriminate].
  - split; intros H.
    + destruct (z_string (of_json j)) as [s|] eqn:Es; [|discriminate H].
      destruct (all_of z_string items) as [l'|]; [|discriminate H].
      inversion H; subst. apply z_string_some in Es. inversion Es; subst.
      simpl. f_equal. now apply IH.
    + destruct l as [|s l]; [discriminate|]. inversion H; subst.
      cbn [z_string]. now rewrite (proj2 (IH l) eq_refl).
Qed.

Lemma z_bounded_strings_some (bound : N) v o :
  z_optional (z_max bound (z_array z_string)) v = Some o
  <-> optional_strings bound v o.
Proof.
  unfold optional_strings, z_max. rewrite z_optional_some. split.
  - intros [H|[_ (l & Hl & ->)]]; [left; exact H|].
    apply z_check_some in Hl. destruct Hl as [Hl Hb].
    apply N.leb_le in Hb. right. exists l.
    split; [|split; [exact Hb | reflexivity]].
    unfold z_array in Hl. destruct v as [|[]|]; try discriminate.
    apply all_of_strings in Hl. now subst.
  - intros [H|(l & -> & Hb & ->)]; [left; exact H|].
    right. split; [discriminate|]. exists l. split; [|reflexivity].
    apply z_check_some. split; [|now apply N.leb_le].
    unfold z_array. now apply all_of_strings.
Qed.

Lemma z_text_some v t :
  z_max 200000 (z_min 1 z_string) v = Some t
  <-> v = of_json (JStr t)
      /\ 1 <= N.of_nat (length t) /\ N.of_nat (length t) <= 200000.
Proof.
  unfold z_max, z_min. rewrite !z_check_some, z_string_some, !N.leb_le.
  tauto.
Qed.

Lemma z_flag_some v b :
  z_default false (z_optional z_boolean) v = Some b
  <-> (v = undefined /\ b = false) \/ v = of_json (JBool b).
Proof.
  unfold z_default.
  destruct (z_optional z_boolean v) as [[x|]|] eqn:E.
  - apply z_optional_some in E.
    destruct E as [[_ E]|[_ (x' & Hx & E)]]; [discriminate|].
    inversion E; subst x'. apply z_boolean_some in Hx. subst v. split.
    + intros H; inversion H; auto.
    + intros [[H _]|H]; [discriminate | now inversion H].
  - apply z_optional_some in E.
    destruct E as [[-> _]|[_ (x' & _ & E)]]; [|discriminate]. split.
    + intros H; inversion H; auto.
    + intros [[_ ->]|H]; [reflexivity | discriminate].
  - split; [discriminate|].
    intros [[-> _] | ->]; discriminate E.
Qed.

(** X14: save_to_daily_note takes exactly the argument bags whose [text] is
    a string of 1 to 200000 code units, whose [spaceId], if there, is a
    string of the identifier format, and whose [noTimestamp], if there, is a
    boolean; the flag is false when left out. *)
Theorem daily_note_schema_accepts props a :
  save_to_daily_note_schema (JObj props) = Some a
  <-> field props (lit "text") = of_json (JStr (dn_text a))
      /\ 1 <= N.of_nat (length (dn_text a))
      /\ N.of_nat (length (dn_text a)) <= 200000
      /\ optional_uuid (field props (lit "spaceId")) (dn_spaceId a)
      /\ ((field props (lit "noTimestamp") = undefined
           /\ dn_noTimestamp a = false)
          \/ field props (lit "noTimestamp")
             = of_json (JBool (dn_noTimestamp a))).
Proof.
  rewrite <- z_spaceId_some, <- z_flag_some.
  rewrite <- (and_assoc (_ = _)), <- (and_assoc (_ /\ _) (_ <= _)).
  rewrite (and_assoc (_ = _)), <- z_text_some.
  unfold save_to_daily_note_schema. destruct a as [t sp nt]; simpl.
  destruct (z_max 200000 _ _) as [t'|];
    [|split; [discriminate | intros (H & _); discriminate H]].
  destruct (z_spaceId _) as [sp'|];
    [|split; [discriminate | intros (_ & H & _); discriminate H]].
  destruct (z_default _ _ _) as [nt'|];
    [|split; [discriminate | intros (_ & _ & H); discriminate H]].
  split.
  - intros H; inversion H; auto.
  - intros (H1 & H2 & H3). inversion H1; inversion H2; inversion H3.
    reflexivity.
Qed.

(** X15: lookup takes exactly the argument bags whose [searchTerm] is a
    non-empty string and whose [spaceId], if there, is a string of the
    identifier format. *)
Theorem lookup_schema_accepts props a :
  lookup_schema (JObj props) = Some a
  <-> field props (lit "searchTerm") = of_json (JStr (lk_searchTerm a))
      /\ lk_searchTerm a <> []
      /\ optional_uuid (field props (lit "spaceId")) (lk_spaceId a).
Proof.
  rewrite <- z_spaceId_some.
  unfold lookup_schema. destruct a as [st sp]; simpl.
  assert (Hst : forall st',
    z_min 1 z_string (field props (lit "searchTerm")) = Some st'
    <-> field props (lit "searchTerm") = of_json (JStr st') /\ st' <> []).
  { intros st'. unfold z_min. rewrite z_check_some, z_string_some, N.leb_le.
    destruct st'; simpl; split; intros [H1 H2]; split; try assumption;
      try lia; try discriminate. now elim H2. }
  destruct (z_min 1 z_string _) as [st'|].
  - destruct (proj1 (Hst st') eq_refl) as [E1 E2].
    destruct (z_spaceId _) as [sp'|].
    + split.
      * intros H; inversion H; subst. auto.
      * intros (H1 & _ & H3). rewrite E1 in H1.
        inversion H1; inversion H3. reflexivity.
    + split; [discriminate | intros (_ & _ & H); discriminate H].
  - split; [discriminate|]. intros (H1 & H2 & _).
    assert (X : None = Some st) by (apply Hst; auto). discriminate X.
Qed.

(** X16: save_weblink takes exactly the argument bags whose [url] is a
    string of the url format, whose [title], [description] and [notes], if
    there, are strings of at most 500, 1000 and 200000 code units (the empty
    string included), whose [tags], if there, is an array of at most 30
    strings, and whose [spaceId], if there, has the identifier format. *)
Theorem weblink_schema_accepts props a :
  save_weblink_schema (JObj props) = Some a
  <-> field props (lit "url") = of_json (JStr (wl_url a))
      /\ zod_url (wl_url a) = true
      /\ optional_text 500 (field props (lit "title")) (wl_title a)
      /\ optional_text 1000 (field props (lit "description"))
           (wl_description a)
      /\ optional_text 200000 (field props (lit "notes")) (wl_notes a)
      /\ optional_strings 30 (field props (lit "tags")) (wl_tags a)
      /\ optional_uuid (field props (lit "spaceId")) (wl_spaceId a).
Proof.
  rewrite <- z_spaceId_some, <- z_bounded_strings_some,
    <- !z_bounded_text_some.
  assert (Hurl : forall u,
    z_check zod_url z_string (field props (lit "url")) = Some u
    <-> field props (lit "url") = of_json (JStr u) /\ zod_url u = true).
  { intros u. now rewrite z_check_some, z_string_some. }
  unfold save_weblink_schema. destruct a as [u ti de no ta sp]; simpl.
  destruct (z_check zod_url z_string _) as [u'|].
  - destruct (proj1 (Hurl u') eq_refl) as [Eu1 Eu2].
    destruct (z_optional (z_max 500 z_string) _) as [ti'|];
      [|split; [discriminate | intros (_ & _ & H & _); discriminate H]].
    destruct (z_optional (z_max 1000 z_string) _) as [de'|];
      [|split; [discriminate | intros (_ & _ & _ & H & _); discriminate H]].
    destruct (z_optional (z_max 200000 z_string) _) as [no'|];
      [|split; [discriminate
               | intros (_ & _ & _ & _ & H & _); discriminate H]].
    destruct (z_optional (z_max 30 _) _) as [ta'|];
      [|split; [discriminate
               | intros (_ & _ & _ & _ & _ & H & _); discriminate H]].
    destruct (z_spaceId _) as [sp'|];
      [|split; [discriminate
               | intros (_ & _ & _ & _ & _ & _ & H); discriminate H]].
    split.
    + intros H; inversion H; subst. repeat split; auto.
    + intros (H1 & _ & H3 & H4 & H5 & H6 & H7). rewrite Eu1 in H1.
      inversion H1; inversion H3; inversion H4; inversion H5;
        inversion H6; inversion H7. reflexivity.
  - split; [discriminate|]. intros (H1 & H2 & _).
    assert (X : None = Some u) by (apply Hurl; auto). discriminate X.
Qed.



End More.

(** ** Start-up with a token *)

(** X18: with a non-empty token, start-up registers the four tools in the
    order of the source and starts the HTTP channel exactly when TRANSPORT
    is the string http (on the port parsed from PORT, or from 3000 when that
    is unset), stdio on any other value or none.  When the channel comes up
    the only line on stderr is its start-up line; when its start rejects,
    the only line is the fatal error and the process exits with status 1. *)
Theorem start_registers_and_selects_transport {RT : Runtime} {HO : Host}
    env token :
  CAPACITIES_TOKEN env = Some token ->
  token <> [] ->
  registered (snd (start env))
  = [ lit "capacities_save_to_daily_note"; lit "capacities_save_weblink";
      lit "capacities_get_spaces"; lit "capacities_lookup" ]
  /\ (TRANSPORT env = Some (lit "http") ->
      start env
      = match comes_up (Http (parseInt (env_or (PORT env) (lit "3000"))))
        with
        | None =>
          (inl tt,
           {| stderr :=
                [ lit "Capacities MCP server running on http://0.0.0.0:"
                  ++ Number_toString
                       (parseInt (env_or (PORT env) (lit "3000")))
                  ++ lit "/mcp" ++ LF ];
              registered :=
                [ lit "capacities_save_to_daily_note";
                  lit "capacities_save_weblink";
                  lit "capacities_get_spaces"; lit "capacities_lookup" ];
              channel :=
                Some (Http (parseInt (env_or (PORT env) (lit "3000")))) |})
        | Some err =>
          (inr 1,
           {| stderr := [ lit "Fatal error: " ++ err ++ LF ];
              registered :=
                [ lit "capacities_save_to_daily_note";
                  lit "capacities_save_weblink";
                  lit "capacities_get_spaces"; lit "capacities_lookup" ];
              channel := None |})
        end)
  /\ (TRANSPORT env <> Some (lit "http") ->
      start env
      = match comes_up Stdio with
        | None =>
          (inl tt,
           {| stderr := [ lit "Capacities MCP server started (stdio)" ++ LF ];
              registered :=
                [ lit "capacities_save_to_daily_note";
                  lit "capacities_save_weblink";
                  lit "capacities_get_spaces"; lit "capacities_lookup" ];
              channel := Some Stdio |})
        | Some err =>
          (inr 1,
           {| stderr := [ lit "Fatal error: " ++ err ++ LF ];
              registered :=
                [ lit "capacities_save_to_daily_note";
                  lit "capacities_save_weblink";
                  lit "capacities_get_spaces"; lit "capacities_lookup" ];
              channel := None |})
        end).
Proof.
  intros Htoken Hne.
  assert (Hhttp : str_eqb (env_or (TRANSPORT env) (lit "stdio")) (lit "http")
                  = true <-> TRANSPORT env = Some (lit "http")).
  { rewrite str_eqb_eq. destruct (TRANSPORT env) as [x|]; cbn [env_or].
    - split; [intros ->; reflexivity | intros E; now inversion E].
    - split; [|discriminate]. intros E. vm_compute in E. discriminate E. }
  unfold start, main, config_of, boot_then, runHttp, runStdio, open_channel,
    fatal, boot_then.
  cbn [API_TOKEN]. rewrite Htoken. cbn [env_or].
  destruct token as [|c token]; [now elim Hne|]. cbn [is_empty].
  cbv beta iota delta [skip registerTool stderr_write process_exit fst snd
    stderr registered channel fresh_process app].
  destruct (str_eqb (env_or (TRANSPORT env) (lit "stdio")) (lit "http"))
    eqn:E.
  - assert (T : TRANSPORT env = Some (lit "http")) by now apply Hhttp.
    split; [|split].
    + destruct (comes_up _); reflexivity.
    + intros _. destruct (comes_up _); reflexivity.
    + intros N. now elim N.
  - assert (T : TRANSPORT env <> Some (lit "http")).
    { intros T. apply Hhttp in T. congruence. }
    split; [|split].
    + destruct (comes_up _); reflexivity.
    + intros T'. now elim T.
    + intros _. destruct (comes_up _); reflexivity.
Qed.

(** ** The further properties at work on the doubles *)

Lemma blank_body_is_whitespace_only_witness :
  fst (capacitiesRequest (RT := demo_runtime)
         (responds 200 "OK" (LF ++ lit "  ")) demo_config
         (lit "/spaces") GET None None [])
  = if forallb is_js_space (LF ++ lit "  ")
    then Return (of_json (JObj []))
    else match JSON_parse (Runtime := demo_runtime) (LF ++ lit "  ") with
         | Some j => Return (of_json j)
         | None => Throw SyntaxError
         end.
Proof.
  apply (blank_body_is_whitespace_only (RT := demo_runtime)
           (responds 200 "OK" (LF ++ lit "  ")) demo_config
           (lit "/spaces") GET None None []
           (ok_response (LF ++ lit "  ")));
    vm_compute; reflexivity.
Defined.

Lemma unreadable_error_body_reports_status_text_witness :
  handle (RT := demo_runtime) (unreadable 503 "Service Unavailable")
    demo_config InvokeGetSpaces []
  = (Throw (Error (lit "Capacities API error "
                   ++ decimal (res_status
                                 {| res_status := 503;
                                    res_statusText := lit "Service Unavailable";
                                    res_text := None |})
                   ++ lit ": "
                   ++ res_statusText
                        {| res_status := 503;
                           res_statusText := lit "Service Unavailable";
                           res_text := None |})),
     [] ++ [request_of (H := demo_runtime) demo_config InvokeGetSpaces]).
Proof.
  apply (unreadable_error_body_reports_status_text (RT := demo_runtime)
           (unreadable 503 "Service Unavailable") demo_config
           InvokeGetSpaces []);
    vm_compute; reflexivity.
Defined.

Lemma unparseable_body_fails_every_tool_witness :
  handle (RT := demo_runtime) (responds 200 "OK" (lit "<html>"))
    demo_config (InvokeSaveToDailyNote (demo_note_args 3)) []
  = (Throw SyntaxError,
     [] ++ [request_of (H := demo_runtime) demo_config
              (InvokeSaveToDailyNote (demo_note_args 3))]).
Proof.
  apply (unparseable_body_fails_every_tool (RT := demo_runtime)
           (responds 200 "OK" (lit "<html>")) demo_config
           (InvokeSaveToDailyNote (demo_note_args 3)) []
           (ok_response (lit "<html>")) (lit "<html>"));
    vm_compute; reflexivity.
Defined.

Lemma transport_failure_is_not_retried_witness :
  handle (RT := demo_runtime) unreachable demo_config
    (InvokeLookup demo_lookup_args) []
  = (Throw FetchError,
     [] ++ [request_of (H := demo_runtime) demo_config
              (InvokeLookup demo_lookup_args)]).
Proof.
  apply (transport_failure_is_not_retried (RT := demo_runtime)
           unreachable demo_config (InvokeLookup demo_lookup_args) []).
  - vm_compute; reflexivity.
  - left; reflexivity.
Defined.

Lemma get_spaces_lists_spaces_witness :
  handle (RT := demo_runtime)
    (responds 200 "OK" (demo_stringify demo_spaces)) demo_config
    InvokeGetSpaces []
  = (Return (text_result
               (lit "📚 Твои Capacities spaces:" ++ LF ++ LF
                ++ join LF
                     (map line_of
                        [ {| s_id := lit "s-1"; s_title := lit "Home" |} ]))),
     [] ++ [request_of (H := demo_runtime) demo_config InvokeGetSpaces]).
Proof.
  apply (get_spaces_lists_spaces (RT := demo_runtime)
           (responds 200 "OK" (demo_stringify demo_spaces)) demo_config []
           (ok_response (demo_stringify demo_spaces))
           (demo_stringify demo_spaces) (of_json demo_spaces)
           [ JObj [ (lit "id", JStr (lit "s-1"));
                    (lit "title", JStr (lit "Home")) ] ]).
  - reflexivity.
  - vm_compute; reflexivity.
  - reflexivity.
  - apply carries_json; vm_compute; [discriminate | reflexivity].
  - vm_compute; reflexivity.
  - repeat constructor.
Defined.

Lemma lookup_reply_counts_items_witness :
  exists items entries,
    Get (of_json demo_two_results) (lit "results")
    = Return (of_json (JArr items))
    /\ items <> []
    /\ mapM (result_entry (RT := demo_runtime)) (map of_json items)
       = Return entries
    /\ length entries = length items
    /\ length items = 2%nat
    /\ text_result
         (lit "🔍 Результаты для " ++ DQUOTE ++ lit "alpha" ++ DQUOTE
          ++ lit ":" ++ LF ++ LF
          ++ join (LF ++ LF)
               [ lit "• **Alpha**" ++ LF ++ lit "  ID: `11`" ++ LF
                 ++ lit "  Тип: RootPage";
                 lit "• **Beta**" ++ LF ++ lit "  ID: `22`" ++ LF
                 ++ lit "  Тип: RootTag" ])
       = text_result
           (lit "🔍 Результаты для " ++ DQUOTE
            ++ lk_searchTerm demo_lookup_args
            ++ DQUOTE ++ lit ":" ++ LF ++ LF
            ++ join (LF ++ LF) entries).
Proof.
  destruct (lookup_reply_counts_items (RT := demo_runtime)
              (responds 200 "OK" (demo_stringify demo_two_results))
              demo_config demo_lookup_args []
              (ok_response (demo_stringify demo_two_results))
              (demo_stringify demo_two_results) (of_json demo_two_results)
              (text_result
                 (lit "🔍 Результаты для " ++ DQUOTE ++ lit "alpha" ++ DQUOTE
                  ++ lit ":" ++ LF ++ LF
                  ++ join (LF ++ LF)
                       [ lit "• **Alpha**" ++ LF ++ lit "  ID: `11`" ++ LF
                         ++ lit "  Тип: RootPage";
                         lit "• **Beta**" ++ LF ++ lit "  ID: `22`" ++ LF
                         ++ lit "  Тип: RootTag" ])))
    as [Hnone | (items & entries & Hget & Hne & Hmap & Hlen & Hreply)].
  - vm_compute; reflexivity.
  - reflexivity.
  - vm_compute; reflexivity.
  - reflexivity.
  - apply carries_json; vm_compute; [discriminate | reflexivity].
  - vm_compute; reflexivity.
  - apply (f_equal (fun r => match content r with
                             | c :: _ => hd 0 (text c)
                             | [] => 0
                             end)) in Hnone.
    discriminate Hnone.
  - exists items, entries.
    split; [exact Hget|]. split; [exact Hne|]. split; [exact Hmap|].
    split; [exact Hlen|]. split; [|exact Hreply].
    assert (E : Return (of_json (JArr items))
                = Get (of_json demo_two_results) (lit "results"))
      by (symmetry; exact Hget).
    vm_compute in E. inversion E. reflexivity.
Defined.

Lemma null_item_fails_the_listing_witness :
  exists e,
    handle (RT := demo_runtime_more)
      (responds 200 "OK" (demo_stringify demo_spaces_with_null))
      demo_config InvokeGetSpaces []
    = (Throw e,
       [] ++ [request_of (H := demo_runtime_more) demo_config
                InvokeGetSpaces]).
Proof.
  apply (null_item_fails_the_listing (RT := demo_runtime_more)
           (responds 200 "OK" (demo_stringify demo_spaces_with_null))
           demo_config InvokeGetSpaces (lit "spaces") []
           (ok_response (demo_stringify demo_spaces_with_null))
           (demo_stringify demo_spaces_with_null)
           (of_json demo_spaces_with_null)
           [ JObj [ (lit "id", JStr (lit "s-1"));
                    (lit "title", JStr (lit "Home")) ];
             JNull ]).
  - reflexivity.
  - reflexivity.
  - reflexivity.
  - vm_compute; reflexivity.
  - reflexivity.
  - apply carries_json; vm_compute; [discriminate | reflexivity].
  - vm_compute; reflexivity.
  - right; left; reflexivity.
Defined.

Lemma null_answer_breaks_reading_tools_witness :
  handle (RT := demo_runtime_more) (responds 200 "OK" (lit "null"))
    demo_config (InvokeSaveWeblink demo_weblink_args) []
  = (Throw TypeError,
     [] ++ [request_of (H := demo_runtime_more) demo_config
              (InvokeSaveWeblink demo_weblink_args)]).
Proof.
  apply (null_answer_breaks_reading_tools (RT := demo_runtime_more)
           (responds 200 "OK" (lit "null")) demo_config
           (InvokeSaveWeblink demo_weblink_args) []
           (ok_response (lit "null")) (lit "null")).
  - intros a; discriminate.
  - vm_compute; reflexivity.
  - reflexivity.
  - vm_compute; reflexivity.
  - reflexivity.
  - apply carries_json; vm_compute; [discriminate | reflexivity].
Defined.

Lemma weblink_reply_shows_saved_link_witness :
  handle (RT := demo_runtime_more)
    (responds 200 "OK" (demo_stringify demo_saved_link)) demo_config
    (InvokeSaveWeblink demo_weblink_args) []
  = (Return (text_result
               (lit "✅ Ссылка сохранена в Capacities:" ++ LF ++ LF
                ++ lit "**" ++ lit "Example" ++ lit "**" ++ LF
                ++ wl_url demo_weblink_args ++ LF ++ LF
                ++ lit "ID: " ++ lit "w-9")),
     [] ++ [request_of (H := demo_runtime_more) demo_config
              (InvokeSaveWeblink demo_weblink_args)]).
Proof.
  apply (weblink_reply_shows_saved_link (RT := demo_runtime_more)
           (responds 200 "OK" (demo_stringify demo_saved_link)) demo_config
           demo_weblink_args []
           (ok_response (demo_stringify demo_saved_link))
           (demo_stringify demo_saved_link) (of_json demo_saved_link)).
  - vm_compute; reflexivity.
  - reflexivity.
  - vm_compute; reflexivity.
  - reflexivity.
  - apply carries_json; vm_compute; [discriminate | reflexivity].
  - vm_compute; reflexivity.
  - vm_compute; reflexivity.
Defined.

Lemma daily_note_sends_whole_text_witness :
  exists props,
    req_body (request_of (H := demo_runtime) demo_config
                (InvokeSaveToDailyNote (demo_note_args 201)))
    = Some (JSON_stringify (Runtime := demo_runtime) (JObj props))
    /\ own_property props (lit "spaceId")
       = Some (JStr (targetSpace demo_config
                       (dn_spaceId (demo_note_args 201))))
    /\ own_property props (lit "mdText")
       = Some (JStr (dn_text (demo_note_args 201)))
    /\ own_property props (lit "noTimeStamp")
       = (if dn_noTimestamp (demo_note_args 201)
          then Some (JBool true) else None)
    /\ length props
       = (if dn_noTimestamp (demo_note_args 201) then 3 else 2)%nat.
Proof.
  apply (daily_note_sends_whole_text (RT := demo_runtime)
           (responds 200 "OK" []) demo_config (demo_note_args 201) []
           (request_of (H := demo_runtime) demo_config
              (InvokeSaveToDailyNote (demo_note_args 201)))
           []).
  vm_compute; reflexivity.
Defined.

Lemma weblink_overrides_are_renamed_witness :
  exists props,
    req_body (request_of (H := demo_runtime) demo_config
                (InvokeSaveWeblink demo_full_weblink_args))
    = Some (JSON_stringify (Runtime := demo_runtime) (JObj props))
    /\ own_property props (lit "spaceId")
       = Some (JStr (targetSpace demo_config
                       (wl_spaceId demo_full_weblink_args)))
    /\ own_property props (lit "url")
       = Some (JStr (wl_url demo_full_weblink_args))
    /\ own_property props (lit "titleOverwrite")
       = option_map JStr (nonempty (wl_title demo_full_weblink_args))
    /\ own_property props (lit "descriptionOverwrite")
       = option_map JStr (nonempty (wl_description demo_full_weblink_args))
    /\ own_property props (lit "mdText")
       = option_map JStr (nonempty (wl_notes demo_full_weblink_args))
    /\ own_property props (lit "tags")
       = option_map (fun tags => JArr (map JStr tags))
           (wl_tags demo_full_weblink_args)
    /\ own_property props (lit "title") = None
    /\ own_property props (lit "description") = None
    /\ own_property props (lit "notes") = None.
Proof.
  apply (weblink_overrides_are_renamed (RT := demo_runtime)
           (responds 200 "OK" []) demo_config demo_full_weblink_args []
           (request_of (H := demo_runtime) demo_config
              (InvokeSaveWeblink demo_full_weblink_args))
           []).
  vm_compute; reflexivity.
Defined.

Lemma explicit_space_overrides_default_witness :
  handle (RT := demo_runtime) (responds 200 "OK" [])
    (with_default demo_config []) (InvokeLookup demo_space_args) []
  = handle (RT := demo_runtime) (responds 200 "OK" []) demo_config
      (InvokeLookup demo_space_args) [].
Proof.
  apply (explicit_space_overrides_default (RT := demo_runtime)
           (responds 200 "OK" []) demo_config
           (InvokeLookup demo_space_args) demo_space [] []).
  reflexivity.
Defined.

Lemma each_tool_has_its_endpoint_witness :
  (req_method (request_of (H := demo_runtime) demo_config InvokeGetSpaces),
   req_url (request_of (H := demo_runtime) demo_config InvokeGetSpaces))
  = (GET, lit "https://api.capacities.io/spaces")
  /\ (req_body (request_of (H := demo_runtime) demo_config InvokeGetSpaces)
      = None
      <-> InvokeGetSpaces = InvokeGetSpaces).
Proof.
  apply (each_tool_has_its_endpoint (RT := demo_runtime)
           (responds 200 "OK" []) demo_config InvokeGetSpaces []
           (request_of (H := demo_runtime) demo_config InvokeGetSpaces) []).
  vm_compute; reflexivity.
Defined.


Lemma start_registers_and_selects_transport_witness :
  start (RT := demo_runtime_ports) (HO := demo_host) demo_http_env
  = (inl tt,
     {| stderr :=
          [ lit "Capacities MCP server running on http://0.0.0.0:"
            ++ lit "3000" ++ lit "/mcp" ++ LF ];
        registered :=
          [ lit "capacities_save_to_daily_note";
            lit "capacities_save_weblink";
            lit "capacities_get_spaces"; lit "capacities_lookup" ];
        channel := Some (Http 3000%float) |})
  /\ start (RT := demo_runtime_ports) (HO := demo_host_down)
       (demo_env (Some (lit "secret")) None)
     = (inr 1,
        {| stderr := [ lit "Fatal error: " ++ lit "Error: stdin closed"
                       ++ LF ];
           registered :=
             [ lit "capacities_save_to_daily_note";
               lit "capacities_save_weblink";
               lit "capacities_get_spaces"; lit "capacities_lookup" ];
           channel := None |}).
Proof.
  split.
  - destruct (start_registers_and_selects_transport
                (RT := demo_runtime_ports) (HO := demo_host)
                demo_http_env (lit "secret"))
      as (_ & Hhttp & _).
    + reflexivity.
    + vm_compute; discriminate.
    + rewrite Hhttp by reflexivity. vm_compute. reflexivity.
  - destruct (start_registers_and_selects_transport
                (RT := demo_runtime_ports) (HO := demo_host_down)
                (demo_env (Some (lit "secret")) None) (lit "secret"))
      as (_ & _ & Hstdio).
    + reflexivity.
    + vm_compute; discriminate.
    + rewrite Hstdio by discriminate. vm_compute. reflexivity.
Defined.

(** The schemas on a few bags. *)
Example daily_note_bag_accepted :
  save_to_daily_note_schema (H := demo_runtime) (JObj demo_note_raw)
  = Some {| dn_text := lit "remember the milk"; dn_spaceId := None;
            dn_noTimestamp := true |}.
Proof. vm_compute. reflexivity. Qed.

Example empty_text_rejected :
  save_to_daily_note_schema (H := demo_runtime)
    (JObj [ (lit "text", JStr []) ])
  = None.
Proof. vm_compute. reflexivity. Qed.

Example null_space_rejected :
  lookup_schema (H := demo_runtime)
    (JObj [ (lit "searchTerm", JStr (lit "alpha")); (lit "spaceId", JNull) ])
  = None.
Proof. vm_compute. reflexivity. Qed.

Example missing_url_rejected :
  save_weblink_schema (H := demo_runtime)
    (JObj [ (lit "title", JStr (lit "Example")) ])
  = None.
Proof. vm_compute. reflexivity. Qed.
